(** * PyCABeM: shallow embedding of the process-control code of
    [hicbem.py] and [benchmark.py] and of the pieces of the execution pool
    the benchmark relies on. *)

From Stdlib Require Import List Bool ZArith QArith Qround Lia Lqa String Ascii.
Import ListNotations.
Open Scope nat_scope.

(* ------------------------------------------------------------------ *)
(** ** Processes, wall time and the clock of [hicbem.controlTime] *)

Module Proc.

(** An external child process, observed through [Popen.poll].  Wall time is
    counted in whole seconds from the spawn ([tstart = 0]); [time.sleep(1)]
    advances it by one and the monitor's own work is taken to cost no wall
    time.
    - [nexit]: wall time at which the process exits by itself ([None]: never);
    - [texit]: delay after [proc.terminate()] (SIGTERM) after which the
      process is gone ([None]: it ignores SIGTERM);
    - [proc.kill()] (SIGKILL) ends it at once. *)
Record proc := mkProc { nexit : option nat; texit : option nat }.

(** Monitor state: wall time, time of the SIGTERM and of the SIGKILL sent by
    the monitor, and the observable events in order. *)
Inductive event :=
| Terminate (t : nat)
| Kill (t : nat)
| Report (t : nat) (elapsed : Q).

Record mstate := mkM {
  now : nat;
  termed : option nat;
  killed : option nat;
  events : list event }.

Definition init : mstate := mkM 0 None None [].

(** [proc.poll() is None]. *)
Definition alive (P : proc) (termed killed : option nat) (t : nat) : bool :=
  (match nexit P with Some e => t <? e | None => true end)
  && (match termed, texit P with Some ts, Some d => t <? ts + d | _, _ => true end)
  && (match killed with Some k => t <? k | None => true end).

Definition poll (P : proc) (s : mstate) : bool :=
  alive P (termed s) (killed s) (now s).

Definition sleep1 (s : mstate) : mstate :=
  mkM (S (now s)) (termed s) (killed s) (events s).

Definition terminate (s : mstate) : mstate :=
  mkM (now s) (Some (now s)) (killed s) (events s ++ [Terminate (now s)]).

Definition kill (s : mstate) : mstate :=
  mkM (now s) (termed s) (Some (now s)) (events s ++ [Kill (now s)]).

Definition report (elapsed : Q) (s : mstate) : mstate :=
  mkM (now s) (termed s) (killed s) (events s ++ [Report (now s) elapsed]).

Section ControlTime.

Variable P : proc.
(** [time.clock()] read at a given wall time. *)
Variable clock : nat -> Q.
Variable timeout : Z.

(** [while proc.poll() is None and i < 10: i += 1; time.sleep(1)], with
    [n = 10 - i] iterations left. *)
Fixpoint grace_wait (n : nat) (s : mstate) : mstate :=
  match n with
  | O => s
  | S n' => if poll P s then grace_wait n' (sleep1 s) else s
  end.

(** The body run once the timeout is detected:
    terminate, wait up to 10 s, kill if still alive, print the report. *)
Definition timeout_block (elapsed : Q) (s : mstate) : mstate :=
  let s := terminate s in
  let s := grace_wait 10 s in
  let s := if poll P s then kill s else s in
  report elapsed s.

(** [controlTime(proc, algname, exectime, timeout)]: the outer
    [while proc.poll() is None] loop, run on [fuel] iterations at most
    ([None]: the loop has not ended within [fuel] iterations).  As in the
    source, [exectime] is overwritten by the elapsed time when the timeout
    fires. *)
Fixpoint controlTime_loop (fuel : nat) (exectime : Q) (s : mstate)
  : option mstate :=
  match fuel with
  | O => None
  | S f =>
      if poll P s then
        let s := sleep1 s in
        if negb (Z.eqb timeout 0)
           && negb (Qle_bool (clock (now s) - exectime)%Q (inject_Z timeout))
        then
          let exectime' := (clock (now s) - exectime)%Q in
          controlTime_loop f exectime' (timeout_block exectime' s)
        else controlTime_loop f exectime s
      else Some s
  end.

(** [execAlgorithm] records [exectime = time.clock()] right before spawning
    the process and hands it to [controlTime]. *)
Definition controlTime (fuel : nat) : option mstate :=
  controlTime_loop fuel (clock 0) init.

End ControlTime.

(** What a run of the monitor can leave behind: no signal at all; a
    SIGTERM after which the process was gone within the 10 s window; or a
    SIGTERM, ten seconds of a living process, and a SIGKILL. *)
Definition outcome (P : proc) (s : mstate) : Prop :=
  events s = []
  \/ (exists t0 t1 el, events s = [Terminate t0; Report t1 el]
        /\ t0 <= t1 <= t0 + 10 /\ alive P (Some t0) None t1 = false)
  \/ (exists t0 el, events s = [Terminate t0; Kill (t0 + 10); Report (t0 + 10) el]
        /\ forall i, i <= 10 -> alive P (Some t0) None (t0 + i) = true).

(** The clock of the source, [time.clock()], is in Python 2 on Unix the
    processor time of the calling process; while the monitor sleeps it
    hardly advances.  [cpu_clock] lets it advance by 1/100 s per second of
    wall time, far more than a sleeping loop consumes.  [wall_clock] is what
    a wall-clock reading ([time.time()]) would give. *)
Definition cpu_clock (t : nat) : Q := (inject_Z (Z.of_nat t) / 100)%Q.
Definition wall_clock (t : nat) : Q := inject_Z (Z.of_nat t).

(** [sleep 100]: exits by itself after 100 s, dies at once on SIGTERM. *)
Definition sleep100 : proc := mkProc (Some 100) (Some 0).

End Proc.

(* ------------------------------------------------------------------ *)
(** ** Python 2 exceptions and results *)

Module Py.

(** The exceptions the embedded code can raise.  All but
    [KeyboardInterrupt] and [SystemExit] derive from [StandardError]. *)
Inductive exc :=
| AssertionError | IndexError | ValueError | TypeError | OSError | NameError
| KeyboardInterrupt | SystemExit.

Definition is_StandardError (e : exc) : bool :=
  match e with
  | KeyboardInterrupt | SystemExit => false
  | _ => true
  end.

(** A computation that returns a value or raises. *)
Definition res (A : Type) : Type := (exc + A)%type.
Definition ret {A} (a : A) : res A := inr a.
Definition raise {A} (e : exc) : res A := inl e.
Definition bind {A B} (m : res A) (k : A -> res B) : res B :=
  match m with inl e => inl e | inr a => k a end.

Module ResNotations.
Notation "x <- m ;; k" := (bind m (fun x => k))
  (at level 61, m at next level, right associativity).
End ResNotations.

(** [int(s)] on a string: surrounding whitespace, an optional sign and at
    least one decimal digit; anything else raises [ValueError]. *)
Definition is_space (c : ascii) : bool :=
  match nat_of_ascii c with 9 | 10 | 11 | 12 | 13 | 32 => true | _ => false end.

Fixpoint lstrip (s : string) : string :=
  match s with
  | String c r => if is_space c then lstrip r else s
  | EmptyString => EmptyString
  end.

Definition strip (s : string) : string :=
  string_of_list_ascii (rev (list_ascii_of_string
    (lstrip (string_of_list_ascii (rev (list_ascii_of_string (lstrip s))))))).

Definition digit (c : ascii) : option Z :=
  let n := nat_of_ascii c in
  if (48 <=? n) && (n <=? 57) then Some (Z.of_nat (n - 48)) else None.

Fixpoint digits_acc (acc : Z) (s : string) : option Z :=
  match s with
  | EmptyString => Some acc
  | String c r =>
      match digit c with
      | Some d => digits_acc (acc * 10 + d)%Z r
      | None => None
      end
  end.

Definition digits (s : string) : option Z :=
  match s with EmptyString => None | _ => digits_acc 0 s end.

Definition py_int (s : string) : option Z :=
  match strip s with
  | String "-" r => option_map Z.opp (digits r)
  | String "+" r => digits r
  | s' => digits s'
  end.

End Py.

(* ------------------------------------------------------------------ *)
(** ** [hicbem.parseParams] *)

Module Hicbem.
Import Py Py.ResNotations.

(** The local variables of the parsing loop.  [sparam] is [False] ([None])
    or the one-character string ['d'] or ['t']; [multiplier] is unbound
    ([None]) until a [-tm] or [-th] flag assigns it. *)
Record pstate := mkP {
  udatas : list string;
  wdatas : list string;
  timeout : Z;
  sparam : option ascii;
  weighted : bool;
  timemul : Z;
  multiplier : option Z }.

Definition pinit : pstate := mkP [] [] 0 None false 1 None.

Definition set_sparam (st : pstate) (sp : option ascii) : pstate :=
  mkP (udatas st) (wdatas st) (timeout st) sp (weighted st) (timemul st) (multiplier st).
Definition set_weighted (st : pstate) (w : bool) : pstate :=
  mkP (udatas st) (wdatas st) (timeout st) (sparam st) w (timemul st) (multiplier st).
Definition set_multiplier (st : pstate) (m : Z) : pstate :=
  mkP (udatas st) (wdatas st) (timeout st) (sparam st) (weighted st) (timemul st) (Some m).
Definition set_timeout (st : pstate) (t : Z) : pstate :=
  mkP (udatas st) (wdatas st) t (sparam st) (weighted st) (timemul st) (multiplier st).
Definition add_data (st : pstate) (arg : string) : pstate :=
  if weighted st
  then mkP (udatas st) (wdatas st ++ [arg]) (timeout st) (sparam st) (weighted st) (timemul st) (multiplier st)
  else mkP (udatas st ++ [arg]) (wdatas st) (timeout st) (sparam st) (weighted st) (timemul st) (multiplier st).

(** [c in s] for a one-character string [c]. *)
Fixpoint char_in (c : ascii) (s : string) : bool :=
  match s with
  | EmptyString => false
  | String c' r => Ascii.eqb c c' || char_in c r
  end.

(** One iteration of [for arg in args]. *)
Definition parse_arg (st : pstate) (arg : string) : res pstate :=
  match arg with
  | EmptyString => raise IndexError
  | String c0 rest =>
      let isflag := Ascii.eqb c0 "-" in
      if xorb (negb isflag) (match sparam st with Some _ => true | None => false end)
         || (if isflag then String.length arg <? 2
             else String.eqb arg "." || String.eqb arg "..")
      then raise ValueError
      else if isflag then
        match rest with
        | EmptyString => raise IndexError
        | String c1 rest2 =>
            if Ascii.eqb c1 "d" || Ascii.eqb c1 "f" then
              let st := set_sparam (set_weighted st false) (Some "d"%char) in
              match rest2 with
              | EmptyString => ret st
              | String c2 rest3 =>
                  if negb (char_in c2 "uw") || (1 <? String.length rest2)
                  then raise ValueError
                  else ret (set_weighted st (Ascii.eqb c2 "w"))
              end
            else if Ascii.eqb c1 "t" then
              let st := set_sparam st (Some "t"%char) in
              match rest2 with
              | EmptyString => ret st
              | String c2 rest3 =>
                  if negb (char_in c2 "smh") || (1 <? String.length rest2)
                  then raise ValueError
                  else if Ascii.eqb c2 "m" then ret (set_multiplier st 60)
                  else if Ascii.eqb c2 "h" then ret (set_multiplier st 3600)
                  else ret st
              end
            else raise ValueError
        end
      else
        match sparam st with
        | Some sp =>
            if Ascii.eqb sp "d" then ret (set_sparam (add_data st arg) None)
            else if Ascii.eqb sp "t" then
              match py_int arg with
              | Some n => ret (set_sparam (set_timeout st (n * timemul st)%Z) None)
              | None => raise ValueError
              end
            else raise AssertionError
        | None => raise TypeError
        end
  end.

Fixpoint parse_loop (st : pstate) (args : list string) : res pstate :=
  match args with
  | [] => ret st
  | arg :: rest => st' <- parse_arg st arg ;; parse_loop st' rest
  end.

(** [parseParams(args)]: returns [(udatas, wdatas, timeout)]. *)
Definition parseParams (args : list string) : res (list string * list string * Z) :=
  match args with
  | [] => raise AssertionError
  | _ => st <- parse_loop pinit args ;; ret (udatas st, wdatas st, timeout st)
  end.

(** The documented meaning of [-t]: whether [a] is a [-t], [-ts], [-tm] or
    [-th] flag, and the last argument that follows such a flag. *)
Definition is_time_flag (a : string) : bool :=
  match a with
  | String c0 (String c1 _) => Ascii.eqb c0 "-" && Ascii.eqb c1 "t"
  | _ => false
  end.

Fixpoint last_time_value_from (prev_t : bool) (acc : option string)
  (args : list string) : option string :=
  match args with
  | [] => acc
  | a :: rest => last_time_value_from (is_time_flag a) (if prev_t then Some a else acc) rest
  end.

Definition last_time_value (args : list string) : option string :=
  last_time_value_from false None args.

(** The timeout is [int(v)] for the value [v] of the last [-t] option, and 0
    without one. *)
Definition timeout_of (acc : option string) (t : Z) : Prop :=
  match acc with
  | Some v => py_int v = Some t
  | None => t = 0%Z
  end.

Definition sp_is_t (o : option ascii) : bool :=
  match o with Some sp => Ascii.eqb sp "t" | None => false end.

(** [secondsToHms(seconds)] on a Python 2 [int]: [/] is floor division. *)
Definition secondsToHms (seconds : Z) : Z * Z * Z :=
  let hours := (seconds / 3600)%Z in
  let mins := ((seconds - hours * 3600) / 60)%Z in
  let secs := (seconds - hours * 3600 - mins * 60)%Z in
  (hours, mins, secs).

(** [int(x)] on a float truncates toward zero. *)
Definition int_of_real (q : Q) : Z := Z.quot (Qnum q) (Zpos (Qden q)).

(** [secondsToHms(seconds)] on a float, computed in exact arithmetic. *)
Definition secondsToHms_real (seconds : Q) : Z * Z * Q :=
  let hours := int_of_real (seconds / 3600)%Q in
  let mins := int_of_real ((seconds - inject_Z hours * 3600) / 60)%Q in
  let secs := (seconds - inject_Z hours * 3600 - inject_Z mins * 60)%Q in
  (hours, mins, secs).

End Hicbem.

(* ------------------------------------------------------------------ *)
(** ** [hicbem.execAlgorithm] and the two algorithm loops *)

Module Run.
Import Py Proc.

(** Lines printed and observable steps. *)
Inductive line :=
| LStarting (algname : string)
| LError (algname : string) (e : exc)
| LMonitored (algname : string) (outcome : mstate)
| LFinished (algname : string).

Section ExecAlgorithm.

(** [time.clock()] readings and the number of monitor iterations observed. *)
Variable clock : nat -> Q.
Variable fuel : nat.

(** [execAlgorithm(algname, workdir, args, timeout, trace)], where [popen]
    is what [subprocess.Popen(args, cwd=workdir)] does: raise or start the
    process.  [None]: the call has not returned, [controlTime] still
    looping after [fuel] iterations. *)
Definition execAlgorithm (popen : exc + proc) (algname workdir : string)
  (args : list string) (timeout : Z) (trace : bool) : option (res (list line)) :=
  if String.eqb algname "" || String.eqb workdir "" ||
     (match args with [] => true | _ => false end)
  then Some (raise AssertionError)
  else
    let l1 := if trace then [LStarting algname] else [] in
    option_map
      (fun r => bind r (fun l2 => ret (l1 ++ l2 ++ (if trace then [LFinished algname] else []))))
      (match popen with
       | inl e => Some (if is_StandardError e then ret [LError algname e] else raise e)
       | inr p => option_map (fun s => ret [LMonitored algname s]) (controlTime p clock timeout fuel)
       end).

End ExecAlgorithm.

(** An algorithm runner: its name and what calling it does (the number of
    scheduled jobs it returns, or the exception it raises). *)
Record alg := mkAlg { aname : string; arun : res Z }.

Inductive alog :=
| Invoked (name : string)
| Caught (name : string) (e : exc)
| Interrupted (e : exc)
| Completed.

(** [benchmark.runApps.execute]: [for alg in algs: try: jobsnum += alg(...)
    except StandardError: print(...)]; the result carries the exception
    that escapes, if any. *)
Fixpoint runApps_execute (algs : list alg) (jobsnum : Z) : list alog * res Z :=
  match algs with
  | [] => ([], ret jobsnum)
  | a :: rest =>
      match arun a with
      | inr n =>
          let '(l, r) := runApps_execute rest (jobsnum + n)%Z in
          (Invoked (aname a) :: l, r)
      | inl e =>
          if is_StandardError e then
            let '(l, r) := runApps_execute rest jobsnum in
            (Invoked (aname a) :: Caught (aname a) e :: l, r)
          else ([Invoked (aname a)], raise e)
      end
  end.

(** How a call, a loop or a run ends: it returns, raises [e], or has not
    returned within the observed monitor iterations. *)
Inductive status :=
| HDone
| HRaised (e : exc)
| HBlocked.

(** A runner of [hicbem.benchmark]: its name and what calling it does
    ([None]: the call does not return). *)
Record halg := mkH { hname : string; hrun : option (res Z) }.

(** The [for alg in algors: alg(udatas, wdatas, timeout)] loop of
    [hicbem.benchmark]: ends at the first exception, or stays in a call
    that does not return. *)
Fixpoint hicbem_algs (algs : list halg) : list alog * status :=
  match algs with
  | [] => ([], HDone)
  | a :: rest =>
      match hrun a with
      | Some (inr _) => let '(l, x) := hicbem_algs rest in (Invoked (hname a) :: l, x)
      | Some (inl e) => ([Invoked (hname a)], HRaised e)
      | None => ([Invoked (hname a)], HBlocked)
      end
  end.

(** The names of the invoked runners, in order. *)
Fixpoint invoked (l : list alog) : list string :=
  match l with
  | [] => []
  | Invoked n :: rest => n :: invoked rest
  | _ :: rest => invoked rest
  end.

(** [hicbem.benchmark]: the [try] encloses the whole loop. *)
Definition hicbem_benchmark (algs : list halg) : list alog * status :=
  let '(l, x) := hicbem_algs algs in
  match x with
  | HDone => (l ++ [Completed], HDone)
  | HRaised e => if is_StandardError e then (l ++ [Interrupted e], HDone) else (l, HRaised e)
  | HBlocked => (l, HBlocked)
  end.

End Run.

(* ------------------------------------------------------------------ *)
(** ** The execution pool *)

Module Pool.

(** Capacities of the pools the benchmark constructs, from [cpu_count()]. *)
Definition generateNets_capacity (cpus : Z) : Z := Z.max (cpus - 1) 1.
Definition runApps_capacity (cpus : Z) : Z := Z.max (Z.min 4 (cpus - 1)) 1.
Definition evalResults_capacity (cpus : Z) : Z := Z.max (cpus - 1) 1.

(** Modelled from the spec: [ExecPool] (module [benchcore], not among the
    sources).  Jobs are named by numbers; [active] holds the jobs that hold
    a worker slot (Delayed or Running).  Spec 4.1: [execute] enqueues the
    job and moves pending jobs to free slots while a slot is free; 4.2: a terminal
    transition releases the slot and pops the next pending jobs in FIFO
    order; 4.3/4.4: the join-deadline sweep and the teardown empty both
    tables. *)
Record pool := mkPool { capacity : nat; pending : list nat; active : list nat }.

Fixpoint fill_slots (n : nat) (cap : nat) (pending active : list nat) : list nat * list nat :=
  match n with
  | O => (pending, active)
  | S n' =>
      match pending with
      | [] => ([], active)
      | j :: rest =>
          if List.length active <? cap then fill_slots n' cap rest (active ++ [j])
          else (pending, active)
      end
  end.

Definition fill_slots_all (p : pool) : pool :=
  let '(pe, ac) := fill_slots (List.length (pending p)) (capacity p) (pending p) (active p) in
  mkPool (capacity p) pe ac.

Inductive op := Execute (j : nat) | Finish (j : nat) | Teardown.

Definition step (o : op) (p : pool) : pool :=
  match o with
  | Execute j => fill_slots_all (mkPool (capacity p) (pending p ++ [j]) (active p))
  | Finish j =>
      if existsb (Nat.eqb j) (active p)
      then fill_slots_all (mkPool (capacity p) (pending p) (filter (fun k => negb (Nat.eqb j k)) (active p)))
      else p
  | Teardown => mkPool (capacity p) [] []
  end.

(** The states a pool of capacity [cap] goes through under [ops]. *)
Fixpoint run_from (p : pool) (ops : list op) : list pool :=
  match ops with
  | [] => [p]
  | o :: rest => p :: run_from (step o p) rest
  end.

Definition run_trace (cap : nat) (ops : list op) : list pool :=
  run_from (mkPool cap [] []) ops.

End Pool.

(* ------------------------------------------------------------------ *)
(** ** The per-file loop of [benchmark.evalResults] *)

Module Eval.
Import Py.

Inductive pyval := VStr (s : string) | VBool (b : bool) | VInt (z : Z).

(** A Python function object: its number of positional parameters (none
    has a default) and its body. *)
Record pyfunc := mkFunc { nparams : nat; body : list pyval -> res Z }.

(** A call [f(a1, ..., an)]: a wrong number of positional arguments raises
    [TypeError] before the body runs. *)
Definition py_call (f : pyfunc) (args : list pyval) : res Z :=
  if Nat.eqb (List.length args) (nparams f) then body f args else raise TypeError.

Section Evaluate.

(** [evalAlgorithm(_execpool, elgname, basefile, measure, timeout)]. *)
Variable evalAlgorithm : string -> string -> string -> res unit.
Variable evalalgs : list string.

Fixpoint evaluate_loop (measure basefile : string) (jobsnum : Z) (algs : list string) : res Z :=
  match algs with
  | [] => ret jobsnum
  | elgname :: rest =>
      let r := bind (evalAlgorithm elgname basefile measure) (fun _ =>
                 if String.eqb measure "nmi"
                 then evalAlgorithm elgname basefile "nmi-s" else ret tt) in
      match r with
      | inr _ => evaluate_loop measure basefile (jobsnum + 1)%Z rest
      | inl e => if is_StandardError e
                 then evaluate_loop measure basefile jobsnum rest
                 else raise e
      end
  end.

(** [def evaluate(measure, basefile, asym, jobsnum)]. *)
Definition evaluate : pyfunc :=
  mkFunc 4 (fun args =>
    match args with
    | [VStr measure; VStr basefile; VBool _; VInt jobsnum] =>
        evaluate_loop measure basefile jobsnum evalalgs
    | _ => raise TypeError
    end).

End Evaluate.

(** Whether the path component ending the reversed prefix [r] has a
    character other than a dot. *)
Fixpoint comp_has_nondot (r : list ascii) : bool :=
  match r with
  | [] => false
  | c :: r' => if Ascii.eqb c "/" then false
               else if Ascii.eqb c "." then comp_has_nondot r' else true
  end.

(** The reversed path before the last dot of its last component, if that dot
    starts an extension. *)
Fixpoint split_last_dot (rcs : list ascii) : option (list ascii) :=
  match rcs with
  | [] => None
  | c :: r =>
      if Ascii.eqb c "/" then None
      else if Ascii.eqb c "." then (if comp_has_nondot r then Some r else None)
      else split_last_dot r
  end.

(** [os.path.splitext(path)[0]] (posixpath): drops the last extension of the
    last path component; leading dots do not start an extension. *)
Definition splitext_root (path : string) : string :=
  match split_last_dot (rev (list_ascii_of_string path)) with
  | Some r => string_of_list_ascii (rev r)
  | None => path
  end.

(** [for asym, basefile in datafiles: basefile = os.path.splitext(basefile)[0]
    + fileext; evaluate(basefile, asym, jobsnum)]. *)
Fixpoint datafiles_loop (evaluate : pyfunc) (fileext : string) (jobsnum : Z)
  (datafiles : list (bool * string)) : res unit :=
  match datafiles with
  | [] => ret tt
  | (asym, basefile) :: rest =>
      let basefile := (splitext_root basefile ++ fileext)%string in
      bind (py_call evaluate [VStr basefile; VBool asym; VInt jobsnum])
        (fun _ => datafiles_loop evaluate fileext jobsnum rest)
  end.

End Eval.
(* ------------------------------------------------------------------ *)
(** ** Python 2 string methods and [posixpath] *)

Module PyStr.
Import Py.

(** [s[n:]]. *)
Fixpoint sdrop (n : nat) (s : string) : string :=
  match n, s with
  | O, _ => s
  | S _, EmptyString => EmptyString
  | S n', String _ r => sdrop n' r
  end.

(** Index of the first [c] in [s]. *)
Fixpoint find_idx (c : ascii) (s : string) : option nat :=
  match s with
  | EmptyString => None
  | String c' r =>
      if Ascii.eqb c c' then Some 0%nat
      else option_map S (find_idx c r)
  end.

(** [s.find(c, start)] for a one-character [c]: an index or [-1]. *)
Definition find_char (c : ascii) (s : string) (start : nat) : Z :=
  match find_idx c (sdrop start s) with
  | Some i => Z.of_nat (start + i)
  | None => (-1)%Z
  end.

(** [s.split(c, 1)]. *)
Definition split1 (c : ascii) (s : string) : list string :=
  match find_idx c s with
  | Some i => [substring 0 i s; sdrop (S i) s]
  | None => [s]
  end.

(** [s.lstrip(cs)] on the characters of [s]. *)
Fixpoint lstrip_chars (cs : string) (l : list ascii) : list ascii :=
  match l with
  | [] => []
  | c :: r => if Hicbem.char_in c cs then lstrip_chars cs r else l
  end.

(** [s.strip(cs)]. *)
Definition strip_chars (cs : string) (s : string) : string :=
  string_of_list_ascii
    (rev (lstrip_chars cs (rev (lstrip_chars cs (list_ascii_of_string s))))).

(** The argument of the [strip] calls of [parseParams]: a double and a
    single quote. *)
Definition quotes : string := String (ascii_of_nat 34) (String (ascii_of_nat 39) EmptyString).

(** [s.split()]: the maximal runs of non-whitespace characters; [cur] is the
    current run, reversed. *)
Fixpoint split_ws_acc (cur : list ascii) (l : list ascii) : list string :=
  match l with
  | [] => match cur with [] => [] | _ => [string_of_list_ascii (rev cur)] end
  | c :: r =>
      if is_space c then
        match cur with
        | [] => split_ws_acc [] r
        | _ => string_of_list_ascii (rev cur) :: split_ws_acc [] r
        end
      else split_ws_acc (c :: cur) r
  end.

Definition split_ws (s : string) : list string := split_ws_acc [] (list_ascii_of_string s).

(** [s.endswith(c)] for a one-character [c]. *)
Definition endswith (c : ascii) (s : string) : bool :=
  match rev (list_ascii_of_string s) with
  | c' :: _ => Ascii.eqb c' c
  | [] => false
  end.

(** [str.lower()] and [str.capitalize()] on byte strings (C locale: only
    ASCII letters change case). *)
Definition ascii_lower (c : ascii) : ascii :=
  let n := nat_of_ascii c in
  if (65 <=? n)%nat && (n <=? 90)%nat then ascii_of_nat (n + 32)%nat else c.

Definition ascii_upper (c : ascii) : ascii :=
  let n := nat_of_ascii c in
  if (97 <=? n)%nat && (n <=? 122)%nat then ascii_of_nat (n - 32)%nat else c.

Fixpoint lower (s : string) : string :=
  match s with
  | EmptyString => EmptyString
  | String c r => String (ascii_lower c) (lower r)
  end.

Definition capitalize (s : string) : string :=
  match s with
  | EmptyString => EmptyString
  | String c r => String (ascii_upper c) (lower r)
  end.

Definition is_slash (c : ascii) : bool := Ascii.eqb c "/".

(** The longest prefix of [l] without a slash. *)
Fixpoint take_nonslash (l : list ascii) : list ascii :=
  match l with
  | [] => []
  | c :: r => if is_slash c then [] else c :: take_nonslash r
  end.

(** [os.path.split(p)] (posixpath):
    [i = p.rfind('/') + 1; head, tail = p[:i], p[i:];
     if head and head != '/'*len(head): head = head.rstrip('/')],
    computed on the reversed path. *)
Definition path_split (p : string) : string * string :=
  let rl := rev (list_ascii_of_string p) in
  let tl := take_nonslash rl in
  let hd := skipn (List.length tl) rl in
  let hd := match hd with
            | [] => hd
            | _ => if forallb is_slash hd then hd else lstrip_chars "/" hd
            end in
  (string_of_list_ascii (rev hd), string_of_list_ascii (rev tl)).

(** [os.path.splitext(p)] (posixpath): root and extension. *)
Definition splitext (p : string) : string * string :=
  match Eval.split_last_dot (rev (list_ascii_of_string p)) with
  | Some r => (string_of_list_ascii (rev r), sdrop (List.length r) p)
  | None => (p, EmptyString)
  end.

(** [_extnetfile]. *)
Definition extnetfile : string := ".nsa".

(** [glob.iglob('*'.join((ddir, ext)))]: its pattern. *)
Definition star_join (d ext : string) : string := (d ++ "*" ++ ext)%string.

End PyStr.

(* ------------------------------------------------------------------ *)
(** ** [benchmark.parseParams] *)

Module Bench.
Import Py Py.ResNotations PyStr.

(** The local variables of the parsing loop; the function returns all of
    them but [timemul].  A dataset is [(asym, path, gen)] with [asym] one of
    [None], [True], [False].  Times are numbers (Python [int] or [float]). *)
Record bstate := mkB {
  gensynt : Z;
  netins : Z;
  shufnum : Z;
  syntdir : string;
  convnets : Z;
  runalgs : bool;
  evalres : Z;
  datas : list (option bool * string * bool);
  timeout : Q;
  timemul : Q;
  algorithms : option (list string) }.

(** [_syntinum] and [_syntdir]. *)
Definition syntinum : Z := 5.
Definition default_syntdir : string := "syntnets/".

Definition binit : bstate :=
  mkB 0 syntinum 0 default_syntdir 0 false 0 [] (inject_Z (36 * 60 * 60)) 1 None.

Definition set_gensynt (st : bstate) (g : Z) : bstate :=
  mkB g (netins st) (shufnum st) (syntdir st) (convnets st) (runalgs st) (evalres st)
    (datas st) (timeout st) (timemul st) (algorithms st).
Definition set_counts (st : bstate) (ni sn : Z) : bstate :=
  mkB (gensynt st) ni sn (syntdir st) (convnets st) (runalgs st) (evalres st)
    (datas st) (timeout st) (timemul st) (algorithms st).
Definition set_syntdir (st : bstate) (d : string) : bstate :=
  mkB (gensynt st) (netins st) (shufnum st) d (convnets st) (runalgs st) (evalres st)
    (datas st) (timeout st) (timemul st) (algorithms st).
Definition set_convnets (st : bstate) (c : Z) : bstate :=
  mkB (gensynt st) (netins st) (shufnum st) (syntdir st) c (runalgs st) (evalres st)
    (datas st) (timeout st) (timemul st) (algorithms st).
Definition set_runalgs (st : bstate) (r : bool) : bstate :=
  mkB (gensynt st) (netins st) (shufnum st) (syntdir st) (convnets st) r (evalres st)
    (datas st) (timeout st) (timemul st) (algorithms st).
Definition set_evalres (st : bstate) (e : Z) : bstate :=
  mkB (gensynt st) (netins st) (shufnum st) (syntdir st) (convnets st) (runalgs st) e
    (datas st) (timeout st) (timemul st) (algorithms st).
Definition add_dataset (st : bstate) (d : option bool * string * bool) : bstate :=
  mkB (gensynt st) (netins st) (shufnum st) (syntdir st) (convnets st) (runalgs st)
    (evalres st) (datas st ++ [d]) (timeout st) (timemul st) (algorithms st).
Definition set_time (st : bstate) (tm t : Q) : bstate :=
  mkB (gensynt st) (netins st) (shufnum st) (syntdir st) (convnets st) (runalgs st)
    (evalres st) (datas st) t tm (algorithms st).
Definition set_algorithms (st : bstate) (a : list string) : bstate :=
  mkB (gensynt st) (netins st) (shufnum st) (syntdir st) (convnets st) (runalgs st)
    (evalres st) (datas st) (timeout st) (timemul st) (Some a).

(** [int(s)] raising [ValueError]. *)
Definition int_or_raise (s : string) : res Z :=
  match py_int s with Some n => ret n | None => raise ValueError end.

(** [for i in range(2,4): if len(arg) > i and (arg[i] not in allowed): raise]. *)
Definition bad_suffix (allowed arg : string) : bool :=
  existsb (fun i => (i <? String.length arg)
                    && match String.get i arg with
                       | Some c => negb (Hicbem.char_in c allowed)
                       | None => false
                       end) [2; 3].

Section BenchParse.

(** [float(s)]: the number a string denotes, [None] when [float] raises
    [ValueError]. *)
Variable py_float : string -> option Q.

(** [-g[f][=[n][.s][=dir]]]. *)
Definition parse_g (st : bstate) (arg : string) : res bstate :=
  let st := set_gensynt st 1 in
  let alen := String.length arg in
  if alen =? 2 then ret st else
  let pos := find_char "=" arg 2 in
  match String.get 2 arg with
  | None => raise IndexError
  | Some c2 =>
      if negb (Hicbem.char_in c2 "f=") || (Z.of_nat alen =? pos + 1)%Z
      then raise ValueError else
      let st := if Ascii.eqb c2 "f" then set_gensynt st 2 else st in
      if negb (pos =? -1)%Z then
        let val := split1 "=" (sdrop (Z.to_nat (pos + 1)) arg) in
        st <- (let v0 := hd EmptyString val in
               if negb (String.eqb v0 "") then
                 let nums := split1 "." v0 in
                 let n0 := hd EmptyString nums in
                 ni <- (if negb (String.eqb n0 "") then int_or_raise n0 else ret 0%Z) ;;
                 sn <- (if 1 <? List.length nums
                        then int_or_raise (nth 1 nums EmptyString)
                        else ret (shufnum st)) ;;
                 if (ni <? 0)%Z || (sn <? 0)%Z then raise ValueError
                 else ret (set_counts st ni sn)
               else ret st) ;;
        if 1 <? List.length val then
          let v1 := nth 1 val EmptyString in
          if String.eqb v1 "" then raise ValueError else
          let sd := strip_chars quotes v1 in
          ret (set_syntdir st (if endswith "/" sd then sd else (sd ++ "/")%string))
        else ret st
      else ret st
  end.

(** [-a="app1 app2 ..."]. *)
Definition parse_a (st : bstate) (arg : string) : res bstate :=
  if negb (String.eqb (substring 0 3 arg) "-a=" && (4 <=? String.length arg))
  then raise ValueError
  else ret (set_algorithms st (split_ws (strip_chars quotes (sdrop 3 arg)))).

(** [-c[f][r]]. *)
Definition parse_c (st : bstate) (arg : string) : res bstate :=
  let st := set_convnets st 1 in
  if bad_suffix "fr" arg then raise ValueError else
  let arg := sdrop 2 arg in
  let cv := convnets st in
  let cv := if Hicbem.char_in "f" arg then Z.lor cv 2 else cv in
  let cv := if Hicbem.char_in "r" arg then Z.lor cv 4 else cv in
  ret (set_convnets st cv).

(** [-r]. *)
Definition parse_r (st : bstate) (arg : string) : res bstate :=
  if negb (String.eqb arg "-r") then raise ValueError else ret (set_runalgs st true).

(** [-e[n][m]]. *)
Definition parse_e (st : bstate) (arg : string) : res bstate :=
  if bad_suffix "nm" arg then raise ValueError else
  let len := String.length arg in
  if (len =? 2) || (len =? 4) then ret (set_evalres st 3)
  else match String.get 2 arg with
       | Some c2 => if Ascii.eqb c2 "n" then ret (set_evalres st 1) else ret (set_evalres st 2)
       | None => raise IndexError
       end.

(** [-d[g][a|s]=path] and [-f[g][a|s]=path]. *)
Definition parse_df (st : bstate) (arg : string) : res bstate :=
  let pos := find_char "=" arg 2 in
  if (pos =? -1)%Z then raise ValueError else
  match String.get 2 arg with
  | None => raise IndexError
  | Some c2 =>
      if negb (Hicbem.char_in c2 "gas=") || (Z.of_nat (String.length arg) =? pos + 1)%Z
      then raise ValueError else
      let gen := Ascii.eqb c2 "g" in
      v <- (if gen
            then match String.get 3 arg with Some c3 => ret c3 | None => raise IndexError end
            else ret c2) ;;
      let asym := if Ascii.eqb v "a" then Some true
                  else if Ascii.eqb v "s" then Some false else None in
      ret (add_dataset st (asym, strip_chars quotes (sdrop (Z.to_nat (pos + 1)) arg), gen))
  end.

(** [-t[s|m|h]=value]. *)
Definition parse_t (st : bstate) (arg : string) : res bstate :=
  let pos := find_char "=" arg 2 in
  if (pos =? -1)%Z then raise ValueError else
  match String.get 2 arg with
  | None => raise IndexError
  | Some c2 =>
      if negb (Hicbem.char_in c2 "smh=") || (Z.of_nat (String.length arg) =? pos + 1)%Z
      then raise ValueError else
      let tm := if Ascii.eqb c2 "m" then 60%Q
                else if Ascii.eqb c2 "h" then 3600%Q else timemul st in
      match py_float (sdrop (Z.to_nat (pos + 1)) arg) with
      | Some x => ret (set_time st tm (x * tm)%Q)
      | None => raise ValueError
      end
  end.

(** One iteration of [for arg in args]. *)
Definition bparse_arg (st : bstate) (arg : string) : res bstate :=
  match arg with
  | EmptyString => raise IndexError
  | String c0 rest =>
      if negb (Ascii.eqb c0 "-") then raise ValueError else
      match rest with
      | EmptyString => raise IndexError
      | String c1 _ =>
          if Ascii.eqb c1 "g" then parse_g st arg
          else if Ascii.eqb c1 "a" then parse_a st arg
          else if Ascii.eqb c1 "c" then parse_c st arg
          else if Ascii.eqb c1 "r" then parse_r st arg
          else if Ascii.eqb c1 "e" then parse_e st arg
          else if Ascii.eqb c1 "d" || Ascii.eqb c1 "f" then parse_df st arg
          else if Ascii.eqb c1 "t" then parse_t st arg
          else raise ValueError
      end
  end.

Fixpoint bparse_loop (st : bstate) (args : list string) : res bstate :=
  match args with
  | [] => ret st
  | arg :: rest => st' <- bparse_arg st arg ;; bparse_loop st' rest
  end.

(** [benchmark.parseParams(args)]. *)
Definition parseParams (args : list string) : res bstate :=
  match args with
  | [] => raise AssertionError
  | _ => bparse_loop binit args
  end.

End BenchParse.

(** The multiplier of the last [-tm] or [-th] option (1 without one) and
    the value of the last [-t...=value] option. *)
Definition tflag (a : string) : option ascii :=
  match a with
  | String "-" (String "t" (String c _)) => Some c
  | _ => None
  end.

Fixpoint last_unit (acc : Q) (args : list string) : Q :=
  match args with
  | [] => acc
  | a :: rest =>
      last_unit (match tflag a with
                 | Some "m"%char => 60%Q
                 | Some "h"%char => 3600%Q
                 | _ => acc
                 end) rest
  end.

Fixpoint last_tvalue (acc : option string) (args : list string) : option string :=
  match args with
  | [] => acc
  | a :: rest =>
      last_tvalue (match tflag a with
                   | Some _ => Some (sdrop (Z.to_nat (find_char "=" a 2 + 1)) a)
                   | None => acc
                   end) rest
  end.

End Bench.

(* ------------------------------------------------------------------ *)
(** ** [benchmark.prepareInput] and the inputs [benchmark] derives *)

Module Prep.
Import Py Py.ResNotations PyStr.

Section PrepareInput.

(** The file system as [prepareInput] sees it: the expansion of a
    wildcard, [os.path.isdir], and [prepareDir(dirname, netfile)] (backup,
    [mkdir] and hard link; it may raise). *)
Variable glob : string -> list string.
Variable isdir : string -> bool.
Variable prepareDir : string -> string -> res unit.

Definition targets : Type := (list (option bool * string) * list (option bool * string))%type.

(** [for net in glob.iglob('*'.join((path, _extnetfile))): dirname =
    os.path.splitext(net)[0]; prepareDir(dirname, net, bcksuffix);
    datadirs.append((asym, dirname + '/'))]. *)
Fixpoint prep_nets (asym : option bool) (nets : list string)
  (dd : list (option bool * string)) : res (list (option bool * string)) :=
  match nets with
  | [] => ret dd
  | net :: rest =>
      let dirname := fst (splitext net) in
      _ <- prepareDir dirname net ;;
      prep_nets asym rest (dd ++ [(asym, (dirname ++ "/")%string)])
  end.

(** The body of [for path in glob.iglob(wpath)]. *)
Definition prep_path (asym : option bool) (gen : bool) (path : string) (acc : targets)
  : res targets :=
  let '(dd, df) := acc in
  if isdir path then
    let path := if endswith "/" path then path else (path ++ "/")%string in
    if gen then
      dd' <- prep_nets asym (glob (star_join path extnetfile)) dd ;; ret (dd', df)
    else ret (dd ++ [(asym, path)], df)
  else
    if gen then
      let dirname := fst (splitext path) in
      _ <- prepareDir dirname path ;;
      ret (dd, df ++ [(asym, (dirname ++ "/" ++ snd (path_split path))%string)])
    else ret (dd, df ++ [(asym, path)]).

Fixpoint prep_paths (asym : option bool) (gen : bool) (paths : list string) (acc : targets)
  : res targets :=
  match paths with
  | [] => ret acc
  | p :: rest => acc' <- prep_path asym gen p acc ;; prep_paths asym gen rest acc'
  end.

Fixpoint prep_datas (ds : list (option bool * string * bool)) (acc : targets) : res targets :=
  match ds with
  | [] => ret acc
  | (asym, wpath, gen) :: rest =>
      acc' <- prep_paths asym gen (glob wpath) acc ;; prep_datas rest acc'
  end.

(** [prepareInput(datas)]: returns [(datadirs, datafiles)]. *)
Definition prepareInput (ds : list (option bool * string * bool)) : res targets :=
  match ds with
  | [] => ret ([], [])
  | _ => prep_datas ds ([], [])
  end.

End PrepareInput.

(** [_netsdir]. *)
Definition netsdir : string := "networks/".

(** In [benchmark]: [if gensynt or (not datadirs and not datafiles):
    datadirs.append((False, _netsdir.join((syntdir, '*/'))))]. *)
Definition add_synthetic (gensynt : Z) (syntdir : string) (t : targets) : targets :=
  let '(dd, df) := t in
  if negb (gensynt =? 0)%Z || (match dd, df with [], [] => true | _, _ => false end)
  then (dd ++ [(Some false, (syntdir ++ netsdir ++ "*/")%string)], df)
  else (dd, df).

End Prep.

(* ------------------------------------------------------------------ *)
(** ** [benchmark.shuffleNets] *)

Module Shuf.
Import Py Py.ResNotations PyStr.

(** What the shuffling stage does: remove a redundant shuffle, or submit a
    job [Job(name=jobname, workdir=...)] to the pool. *)
Inductive sevent :=
| Removed (netfile : string)
| Scheduled (jobname workdir : string).

Section ShuffleNets.

Variable glob : string -> list string.
(** Whether [os.remove(netfile)] can delete the file; when it cannot (a
    read-only directory, say) it raises [OSError]. *)
Variable removable : string -> bool.
Variable shufnum : Z.

(** [shuffle(job)]: the pool job it submits. *)
Definition shuffle (name workdir : string) : list sevent :=
  if (shufnum <? 1)%Z then [] else [Scheduled (name ++ "_shf")%string workdir].

(** [shuffleNet(netfile)]: the events and the returned count. *)
Definition shuffleNet (netfile : string) : list sevent * res Z :=
  let '(path, name) := path_split netfile in
  let name := fst (splitext name) in
  let ext2 := snd (splitext name) in
  match ext2 with
  | String _ idx =>
      match py_int idx with
      | Some k =>
          if (shufnum <? k)%Z then
            (if removable netfile then ([Removed netfile], ret 0%Z) else ([], raise OSError))
          else ([], ret 0%Z)
      | None => ([], raise ValueError)
      end
  | EmptyString => (shuffle name (path ++ "/")%string, ret shufnum)
  end.

(** [for ...: count += shuffleNet(dfile)]; an exception ends the loop. *)
Fixpoint shuffle_files (files : list string) (count : Z) : list sevent * res Z :=
  match files with
  | [] => ([], ret count)
  | f :: rest =>
      let '(l, r) := shuffleNet f in
      match r with
      | inl e => (l, raise e)
      | inr n => let '(l', r') := shuffle_files rest (count + n)%Z in (l ++ l', r')
      end
  end.

(** The network files [shuffleNets] visits: the [*.nsa] files of each
    directory, then the files. *)
Definition shuffle_targets (datadirs datafiles : list (option bool * string)) : list string :=
  flat_map (fun d => glob (star_join (snd d) extnetfile)) datadirs ++ map snd datafiles.

(** [shuffleNets(datadirs, datafiles, shufnum, overwrite, shuftimeout)]: the
    events and the time given to [_execpool.join]. *)
Definition shuffleNets (datadirs datafiles : list (option bool * string)) (shuftimeout : Z)
  : list sevent * res Z :=
  if (shufnum <? 1)%Z then ([], raise AssertionError) else
  let '(l, r) := shuffle_files (shuffle_targets datadirs datafiles) 0 in
  (l, bind r (fun count => ret (Z.max shuftimeout (count * shufnum * (3 * 60)))%Z)).

End ShuffleNets.

End Shuf.

(* ------------------------------------------------------------------ *)
(** ** [benchmark.convertNets] and [convertNet] *)

Module Conv.
Import Py PyStr.

(** A conversion job submitted to the pool, or a conversion skipped after a
    [StandardError] (printed by the [except] of [convertNet]). *)
Inductive cevent :=
| Submitted (jobname : string) (args : list string)
| Skipped (inpnet : string).

Section ConvertNets.

Variable glob : string -> list string.
(** [benchapps.pyexec]. *)
Variable pyexec : string.

(** [convertNet(inpnet, asym, overwrite, resdub, timeout)] with the module
    global [_execpool] ([false]: [None]): with no pool, the attribute
    lookup [_execpool.execute] raises [AttributeError], a [StandardError]
    that the function catches. *)
Definition convertNet (pool : bool) (inpnet : string) (asym : option bool)
  (overwrite resdub : bool) : list cevent :=
  let args := ([pyexec; "3dparty/tohig.py"%string; inpnet;
                ("-f=ns" ++ (match asym with Some true => "a" | _ => "e" end))%string;
                ("-o" ++ (if overwrite then "f" else "s"))%string]
               ++ (if resdub then ["-r"%string] else []))%list in
  if pool then [Submitted (fst (splitext (snd (path_split inpnet)))) args]
  else [Skipped inpnet].

(** The test of [convertNets]: [not os.path.splitext(os.path.splitext(net)[0])[1]]. *)
Definition not_shuffle (net : string) : bool :=
  match snd (splitext (fst (splitext net))) with EmptyString => true | _ => false end.

Fixpoint convert_loop (nets : list string) (asym : option bool) (overwrite resdub : bool)
  (netsnum : Z) : list cevent * Z :=
  match nets with
  | [] => ([], netsnum)
  | net :: rest =>
      if not_shuffle net then
        let '(l, n) := convert_loop rest asym overwrite resdub (netsnum + 1)%Z in
        (convertNet true net asym overwrite resdub ++ l, n)
      else convert_loop rest asym overwrite resdub netsnum
  end.

(** [convertNets(datadir, asym, overwrite, resdub, convtimeout)] called
    with the pool state [pool]: it creates a pool if there is none,
    converts, joins with the limit returned here, and leaves
    [_execpool = None] (returned [false]). *)
Definition convertNets (pool : bool) (datadir : string) (asym : option bool)
  (overwrite resdub : bool) (convtimeout : Z) : list cevent * Z * bool :=
  let '(l, netsnum) := convert_loop (glob (star_join datadir extnetfile)) asym overwrite resdub 0 in
  (l, Z.max convtimeout (netsnum * (3 * 60)), false)%Z.

(** The conversion stage of [benchmark]: [for asym, ddir in datadirs:
    convertNets(ddir, asym, convnets&0b11 == 0b11, convnets&0b100)], then
    [for asym, dfile in datafiles: convertNet(dfile, asym, ...)], starting
    with the pool state [pool]. *)
Fixpoint convert_dirs (pool : bool) (overwrite resdub : bool)
  (datadirs : list (option bool * string)) : list cevent * bool :=
  match datadirs with
  | [] => ([], pool)
  | (asym, ddir) :: rest =>
      let '(l, _, pool') := convertNets pool ddir asym overwrite resdub (30 * 60) in
      let '(l', pool'') := convert_dirs pool' overwrite resdub rest in
      (l ++ l', pool'')
  end.

Definition convert_stage (pool : bool) (convnets : Z)
  (datadirs datafiles : list (option bool * string)) : list cevent :=
  let overwrite := (Z.land convnets 3 =? 3)%Z in
  let resdub := negb (Z.land convnets 4 =? 0)%Z in
  let '(l, pool') := convert_dirs pool overwrite resdub datadirs in
  l ++ flat_map (fun f => convertNet pool' (snd f) (fst f) overwrite resdub) datafiles.

End ConvertNets.

End Conv.

(* ------------------------------------------------------------------ *)
(** ** [benchmark.runApps] *)

Module Apps.
Import Py Py.ResNotations PyStr Run.

(** Python's [min(a, b)] and [max(a, b)]: the first argument unless the
    second is strictly smaller (larger). *)
Definition py_min (a b : Q) : Q := if negb (Qle_bool a b) then b else a.
Definition py_max (a b : Q) : Q := if negb (Qle_bool b a) then b else a.

(** [_prefExec]. *)
Definition prefExec : string := "exec".

(** An algorithm runner [alg(_execpool, net, asym, timeout)]: the number of
    jobs it schedules, or the exception it raises. *)
Definition runner : Type := string -> option bool -> Q -> res Z.

Section RunApps.

Variable glob : string -> list string.
(** [getattr(appsmodule, name)] for the names the module defines. *)
Variable appsattr : string -> option runner.
(** [unknownApp(name)]: the runner used for a name the module lacks. *)
Variable unknownApp : string -> runner.
(** [[getattr(appsmodule, func) for func in dir(appsmodule) if ...]]. *)
Variable default_algs : list (string * runner).

(** [algs]: [getattr(appsmodule, _prefExec + alg.capitalize(),
    unknownApp(_prefExec + alg.capitalize()))] for each requested name. *)
Definition select_algs (algorithms : option (list string)) : list (string * runner) :=
  match algorithms with
  | Some ((_ :: _) as l) =>
      map (fun a => let n := (prefExec ++ capitalize a)%string in
                    (n, match appsattr n with Some f => f | None => unknownApp n end)) l
  | _ => default_algs
  end.

(** The networks [runApps] visits: the [*.nsa] files of each directory,
    then the files. *)
Definition app_targets (datadirs datafiles : list (option bool * string))
  : list (option bool * string) :=
  flat_map (fun d => map (fun net => (fst d, net)) (glob (star_join (snd d) extnetfile))) datadirs
  ++ datafiles.

(** [tnum = execute(net, asym, jobsnum); jobsnum += tnum;
    netcount += tnum != 0] for each network. *)
Fixpoint apps_nets (algs : list (string * runner)) (timeout : Q)
  (nets : list (option bool * string)) (jobsnum netcount : Z) : list alog * res (Z * Z) :=
  match nets with
  | [] => ([], ret (jobsnum, netcount))
  | (asym, net) :: rest =>
      let '(l, r) := runApps_execute
                       (map (fun a => mkAlg (fst a) (snd a net asym timeout)) algs) jobsnum in
      match r with
      | inl e => (l, raise e)
      | inr tnum =>
          let '(l', r') := apps_nets algs timeout rest (jobsnum + tnum)%Z
                             (netcount + (if (tnum =? 0)%Z then 0 else 1))%Z in
          (l ++ l', r')
      end
  end.

(** [runApps(appsmodule, algorithms, datadirs, datafiles, exectime, timeout)]
    with the global [_execpool] ([pool]): the runners' log and
    [(jobsnum, netcount, timelim)], [timelim] being the time given to
    [_execpool.join]. *)
Definition runApps (pool : bool) (algorithms : option (list string))
  (datadirs datafiles : list (option bool * string)) (exectime timeout : Q)
  : list alog * res (Z * Z * Q) :=
  if negb (negb (match datadirs, datafiles with [], [] => true | _, _ => false end)
           && Qle_bool 0 exectime && Qle_bool 0 timeout)
  then ([], raise AssertionError)
  else if pool then ([], raise AssertionError)
  else
    let '(l, r) := apps_nets (select_algs algorithms) timeout
                     (app_targets datadirs datafiles) 1 0 in
    (l, bind r (fun jc => ret (fst jc, snd jc,
                             py_min (timeout * inject_Z (fst jc)) (inject_Z (5 * 24 * 60 * 60))))).

End RunApps.

End Apps.

(* ------------------------------------------------------------------ *)
(** ** [benchmark.evalResults] *)

Module EvalRes.
Import Py Py.ResNotations PyStr Eval Apps.

(** A Python float: a finite value, an infinity ([Inf true] is [inf],
    [Inf false] is [-inf]) or [nan]. *)
Inductive pyfloat :=
| Fin (q : Q)
| Inf (pos : bool)
| NaN.

(** [a < b]; every comparison with [nan] is false. *)
Definition flt (a b : pyfloat) : bool :=
  match a, b with
  | NaN, _ | _, NaN => false
  | Fin x, Fin y => negb (Qle_bool y x)
  | Inf true, _ => false
  | Inf false, Inf false => false
  | Inf false, _ => true
  | Fin _, Inf pos => pos
  end.

(** [a >= b]. *)
Definition fge (a b : pyfloat) : bool :=
  match a, b with
  | NaN, _ | _, NaN => false
  | _, _ => negb (flt a b)
  end.

(** [a * n] for an int [n]: an infinity times [0] is [nan]. *)
Definition fmul_int (a : pyfloat) (n : Z) : pyfloat :=
  match a with
  | Fin x => Fin (x * inject_Z n)
  | Inf pos => if (n =? 0)%Z then NaN else Inf (Bool.eqb pos (0 <? n)%Z)
  | NaN => NaN
  end.

(** [min(a, b)] and [max(a, b)]: the first argument unless the second is
    strictly smaller (larger). *)
Definition fmin (a b : pyfloat) : pyfloat := if flt b a then b else a.
Definition fmax (a b : pyfloat) : pyfloat := if flt a b then b else a.

Section EvalResults.

Variable glob : string -> list string.
Variable evalAlgorithm : string -> string -> string -> res unit.
(** [[funcname[ianame:].lower() for funcname in dir(appsmodule) if ...]]. *)
Variable default_evalalgs : res (list string).
(** [benchcore._extclnodes]. *)
Variable extclnodes : string.

(** [measures = {1: ['nmi', _extclnodes, 'NMI'], 2: ['mod', '.hig', 'Q']}]
    in its iteration order. *)
Definition measures : list (Z * (string * string)) :=
  [(1%Z, ("nmi"%string, extclnodes)); (2%Z, ("mod"%string, ".hig"%string))].

(** [for basefile in glob.iglob(...): evaluate(measure, basefile, asym,
    jobsnum)]: the returned value is dropped. *)
Fixpoint eval_bases (ev : pyfunc) (measure : string) (asym : bool) (jobsnum : Z)
  (bases : list string) : res unit :=
  match bases with
  | [] => ret tt
  | b :: rest =>
      _ <- py_call ev [VStr measure; VStr b; VBool asym; VInt jobsnum] ;;
      eval_bases ev measure asym jobsnum rest
  end.

Fixpoint eval_dirs (ev : pyfunc) (measure fileext : string) (jobsnum : Z)
  (datadirs : list (bool * string)) : res unit :=
  match datadirs with
  | [] => ret tt
  | (asym, ddir) :: rest =>
      _ <- eval_bases ev measure asym jobsnum (glob (star_join ddir fileext)) ;;
      eval_dirs ev measure fileext jobsnum rest
  end.

(** The body of [for im in measures] for a selected measure: the value of
    [jobsnum] it leaves. *)
Definition eval_measure (algorithms : option (list string))
  (datadirs datafiles : list (bool * string)) (m : string * string) : res Z :=
  evalalgs <- (match algorithms with
               | Some ((_ :: _) as l) => ret (map lower l)
               | _ => default_evalalgs
               end) ;;
  let ev := evaluate evalAlgorithm evalalgs in
  let jobsnum := 0%Z in
  _ <- eval_dirs ev (fst m) (snd m) jobsnum datadirs ;;
  _ <- datafiles_loop ev (snd m) jobsnum datafiles ;;
  ret jobsnum.

(** [for im in measures: if evalres & im != im: continue; ...]; [jobsnum]
    is unbound ([None]) until a measure is evaluated. *)
Fixpoint eval_measures (evalres : Z) (algorithms : option (list string))
  (datadirs datafiles : list (bool * string)) (ms : list (Z * (string * string)))
  (jobsnum : option Z) : res (option Z) :=
  match ms with
  | [] => ret jobsnum
  | (im, m) :: rest =>
      if negb (Z.land evalres im =? im)%Z
      then eval_measures evalres algorithms datadirs datafiles rest jobsnum
      else j <- eval_measure algorithms datadirs datafiles m ;;
           eval_measures evalres algorithms datadirs datafiles rest (Some j)
  end.

(** [evalResults(evalres, appsmodule, algorithms, datadirs, datafiles,
    exectime, timeout)] with the global [_execpool] ([pool]): the time given
    to [_execpool.join].  Reading the unbound local [jobsnum] raises
    [UnboundLocalError], a [NameError]. *)
Definition evalResults (pool : bool) (evalres : Z) (algorithms : option (list string))
  (datadirs datafiles : list (bool * string)) (exectime : Q) (timeout : pyfloat)
  : res pyfloat :=
  if negb (negb (evalres =? 0)%Z
           && negb (match datadirs, datafiles with [], [] => true | _, _ => false end)
           && Qle_bool 0 exectime && fge timeout (Fin 0))
  then raise AssertionError
  else if pool then raise AssertionError
  else
    oj <- eval_measures evalres algorithms datadirs datafiles measures None ;;
    match oj with
    | None => raise NameError
    | Some j =>
        let timelim := fmin (fmul_int timeout j) (Fin (inject_Z (5 * 24 * 60 * 60))) in
        ret (fmax timelim (Fin (exectime * 2)))
    end.

End EvalResults.

End EvalRes.

(* ------------------------------------------------------------------ *)
(** ** [hicbem.benchmark] with its runners *)

Module HicbemMain.
Import Py Proc Run.

Section Main.

Variable clock : nat -> Q.
Variable fuel : nat.
(** What [subprocess.Popen] does for the two runners that spawn a process. *)
Variable popen_louvain popen_hirecs : exc + proc.

(** [execLouvain], [execHirecs], [execOslom2], [execGanxis]: they return
    [None], which the loop ignores ([0] stands for it). *)
Definition execLouvain (timeout : Z) : option (res Z) :=
  option_map (fun r => bind r (fun _ => ret 0%Z))
    (execAlgorithm clock fuel popen_louvain "Louvain" "LouvainUpd"
       ["../exectime"%string; "ls"%string] timeout true).

Definition execHirecs (timeout : Z) : option (res Z) :=
  option_map (fun r => bind r (fun _ => ret 0%Z))
    (execAlgorithm clock fuel popen_hirecs "HiReCS" "." ["./hirecs"%string] timeout true).

Definition execOslom2 (timeout : Z) : option (res Z) := Some (ret 0%Z).
Definition execGanxis (timeout : Z) : option (res Z) := Some (ret 0%Z).

(** [algors = (execLouvain, execHirecs, execOslom2, execGanxis)]. *)
Definition algors (timeout : Z) : list halg :=
  [mkH "execLouvain" (execLouvain timeout); mkH "execHirecs" (execHirecs timeout);
   mkH "execOslom2" (execOslom2 timeout); mkH "execGanxis" (execGanxis timeout)].

(** [hicbem.benchmark]: [parseParams] runs before the [try]. *)
Definition benchmark (args : list string) : list alog * status :=
  match Hicbem.parseParams args with
  | inl e => ([], HRaised e)
  | inr (_, _, t) => hicbem_benchmark (algors t)
  end.

End Main.

End HicbemMain.

(* ------------------------------------------------------------------ *)
(** ** Predicates used to state properties of the benchmark driver *)

Module BenchProps.
Import Py PyStr Bench.

(** What the result of [parseParams] always satisfies. *)
Definition bwf (st : bstate) : Prop :=
  endswith "/" (syntdir st) = true /\ (0 <= netins st)%Z /\ (0 <= shufnum st)%Z
  /\ In (evalres st) [0; 1; 2; 3]%Z /\ In (convnets st) [0; 1; 3; 5; 7]%Z.

(** The invariant of the loop: [acc] is the value of the last [-t] option
    seen, and [t0] the timeout before any. *)
Definition tinv (pf : string -> option Q) (t0 : Q) (acc : option string) (st : bstate) : Prop :=
  match acc with
  | None => timeout st = t0
  | Some v => exists x, pf v = Some x /\ timeout st = (x * timemul st)%Q
  end.

End BenchProps.

Module PrepProps.
Import PyStr.

(** A data directory as [benchmark] needs it: ending with a slash. *)
Definition dir_ok (d : option bool * string) : Prop := endswith "/" (snd d) = true.

End PrepProps.

Module ShufProps.
Import Py PyStr Shuf.

(** The second extension of a network file's name, as [shuffleNet] reads
    it, and the ones it treats as base networks. *)
Definition second_ext (f : string) : string :=
  snd (splitext (fst (splitext (snd (path_split f))))).

Definition is_base (f : string) : bool :=
  match second_ext f with EmptyString => true | _ => false end.

(** A second extension that [int] rejects. *)
Definition bad_index (f : string) : bool :=
  match second_ext f with
  | String _ idx => match py_int idx with Some _ => false | None => true end
  | EmptyString => false
  end.

(** A redundant shuffle that [os.remove] cannot delete. *)
Definition stuck (removable : string -> bool) (shufnum : Z) (f : string) : bool :=
  match second_ext f with
  | String _ idx =>
      match py_int idx with
      | Some k => (shufnum <? k)%Z && negb (removable f)
      | None => false
      end
  | EmptyString => false
  end.

(** The shuffling job [shuffleNet] submits for a base network. *)
Definition shuffle_job (f : string) : string * string :=
  let '(path, name) := path_split f in ((fst (splitext name) ++ "_shf")%string, (path ++ "/")%string).

(** The jobs of the [Scheduled] events, in order. *)
Fixpoint scheduled (ev : list sevent) : list (string * string) :=
  match ev with
  | [] => []
  | Scheduled n w :: rest => (n, w) :: scheduled rest
  | _ :: rest => scheduled rest
  end.

End ShufProps.

Module ConvProps.
Import PyStr Eval.

(** What follows the last path component in a reversed path: nothing or a
    slash. *)
Definition rest_ok (l : list ascii) : Prop :=
  match l with [] => True | c :: _ => c = "/"%char end.

Definition slash_free (l : list ascii) : Prop := Forall (fun c => is_slash c = false) l.

(** An empty extension is exactly the absence of an extension dot. *)
Definition ext_is_empty (p : string) : bool :=
  match snd (splitext p) with EmptyString => true | _ => false end.

Definition no_dot (l : list ascii) : bool :=
  match split_last_dot l with None => true | Some _ => false end.

(** The reversed characters of [os.path.splitext(p)[0]]. *)
Definition root_rev (p : string) : list ascii :=
  match split_last_dot (rev (list_ascii_of_string p)) with
  | Some r => r
  | None => rev (list_ascii_of_string p)
  end.

End ConvProps.

Module AppsProps.
Import Py Run Apps.

(** The jobs counted by the runners that return. *)
Fixpoint counts (algs : list alg) : Z :=
  match algs with
  | [] => 0%Z
  | a :: rest => ((match arun a with inr n => n | inl _ => 0 end) + counts rest)%Z
  end.

(** The calls [alg(_execpool, net, asym, timeout)] of [execute]. *)
Definition runner_algs (algs : list (string * runner)) (net : string) (asym : option bool)
  (timeout : Q) : list alg :=
  map (fun a => mkAlg (fst a) (snd a net asym timeout)) algs.

(** Every runner on every network returns a count in [lo, hi] or raises a
    [StandardError]. *)
Definition runners_in (lo hi : Z) (algs : list (string * runner)) (timeout : Q)
  (nets : list (option bool * string)) : Prop :=
  forall a asym net, In a algs -> In (asym, net) nets ->
    match snd a net asym timeout with
    | inr n => (lo <= n <= hi)%Z
    | inl e => is_StandardError e = true
    end.

End AppsProps.

Module ParseProps.
Import Hicbem.

(** [arg[0] == '-'] for a non-empty argument. *)
Definition is_flag (a : string) : bool :=
  match a with String c _ => Ascii.eqb c "-" | EmptyString => false end.

Definition has_sparam (st : pstate) : bool :=
  match sparam st with Some _ => true | None => false end.

(** A dataset value: an argument that is not an option, [.] or [..]. *)
Definition value_ok (args : list string) (x : string) : Prop :=
  In x args /\ is_flag x = false /\ x <> "."%string /\ x <> ".."%string.

End ParseProps.

(* ------------------------------------------------------------------ *)
(** ** Facts about [controlTime] *)

Module ProcFacts.
Import Proc.

Section Loop.

Variable P : proc.
Variable clock : nat -> Q.
Variable timeout : Z.

Lemma grace_wait_shape : forall n s,
  exists k, k <= n
    /\ grace_wait P n s = mkM (now s + k) (termed s) (killed s) (events s)
    /\ (forall i, i < k -> alive P (termed s) (killed s) (now s + i) = true)
    /\ (k < n -> alive P (termed s) (killed s) (now s + k) = false).
Proof.
  induction n as [|n IH]; intros s.
  - exists 0. split; [lia|]. split.
    + destruct s; simpl; rewrite Nat.add_0_r; reflexivity.
    + split; intros; lia.
  - simpl. unfold poll. destruct (alive P (termed s) (killed s) (now s)) eqn:Ha.
    + destruct (IH (sleep1 s)) as (k & Hk & Heq & Hpre & Hlast).
      exists (S k). simpl in *. split; [lia|]. split; [|split].
      * rewrite Heq. f_equal. lia.
      * intros i Hi. destruct i as [|i].
        -- rewrite Nat.add_0_r. exact Ha.
        -- replace (now s + S i) with (S (now s) + i) by lia. apply Hpre. lia.
      * intros Hlt. replace (now s + S k) with (S (now s) + k) by lia.
        apply Hlast. lia.
    + exists 0. split; [lia|]. split; [|split].
      * destruct s; simpl; rewrite Nat.add_0_r; reflexivity.
      * intros; lia.
      * intros _. rewrite Nat.add_0_r. exact Ha.
Qed.

Lemma timeout_block_shape : forall el t,
  let s := timeout_block P el (mkM t None None []) in
  outcome P s /\ poll P s = false.
Proof.
  intros el t. unfold timeout_block.
  destruct (grace_wait_shape 10 (terminate (mkM t None None [])))
    as (k & Hk & Heq & Hpre & Hlast).
  cbn [terminate now termed killed events app] in *. rewrite Heq.
  unfold poll. cbn [now termed killed report kill].
  destruct (alive P (Some t) None (t + k)) eqn:Ha.
  - assert (k = 10).
    { destruct (Nat.eq_dec k 10); [assumption|].
      discriminate (Hlast ltac:(lia)). }
    subst k. split.
    + right; right. exists t, el. split; [reflexivity|].
      intros i Hi. destruct (Nat.eq_dec i 10).
      * subst; exact Ha.
      * apply Hpre. lia.
    + unfold report, kill, alive. cbn [now termed killed]. cbv beta iota.
      rewrite Nat.ltb_irrefl, andb_false_r. reflexivity.
  - split.
    + right; left. exists t, (t + k), el. repeat split; try lia. exact Ha.
    + exact Ha.
Qed.

Lemma loop_after_block : forall fuel ex s s',
  poll P s = false -> controlTime_loop P clock timeout fuel ex s = Some s' -> s' = s.
Proof.
  intros [|f] ex s s' Hp H; simpl in H; [discriminate|].
  rewrite Hp in H. congruence.
Qed.

Lemma loop_outcome : forall fuel ex t s',
  controlTime_loop P clock timeout fuel ex (mkM t None None []) = Some s' ->
  outcome P s'.
Proof.
  induction fuel as [|f IH]; intros ex t s' H; [discriminate|].
  cbn [controlTime_loop] in H.
  destruct (poll P (mkM t None None [])) eqn:Hp.
  - unfold sleep1 in H; cbn [now termed killed events] in H.
    match type of H with
    | (if ?c then _ else _) = _ => destruct c eqn:Hc
    end.
    + destruct (timeout_block_shape (clock (S t) - ex)%Q (S t)) as [Ho Hp'].
      apply loop_after_block in H; [subst s'; exact Ho | exact Hp'].
    + exact (IH _ _ _ H).
  - injection H as <-. left; reflexivity.
Qed.

End Loop.

Section NoTimeout.

Variable P : proc.
Variable clock : nat -> Q.

Lemma loop_timeout_zero : forall fuel ex t,
  controlTime_loop P clock 0 fuel ex (mkM t None None []) =
  match nexit P with
  | Some e => if (e - t) <? fuel then Some (mkM (Nat.max t e) None None []) else None
  | None => None
  end.
Proof.
  induction fuel as [|f IH]; intros ex t.
  - destruct (nexit P); reflexivity.
  - cbn [controlTime_loop]. unfold poll, alive; cbn [now termed killed].
    destruct (nexit P) as [e|] eqn:He.
    + destruct (t <? e) eqn:Hlt; cbn [andb].
      * apply Nat.ltb_lt in Hlt. unfold sleep1; cbn [now termed killed events].
        cbn [Z.eqb negb andb]. rewrite IH.
        replace (e - t) with (S (e - S t)) by lia.
        replace (Nat.max (S t) e) with (Nat.max t e) by lia.
        reflexivity.
      * apply Nat.ltb_ge in Hlt.
        replace (e - t) with 0 by lia. replace (Nat.max t e) with t by lia.
        reflexivity.
    + cbn [andb]. unfold sleep1; cbn [now termed killed events Z.eqb negb andb].
      rewrite IH. reflexivity.
Qed.

End NoTimeout.

End ProcFacts.

(* ------------------------------------------------------------------ *)
(** ** Claims about the monitor [controlTime] *)

Module MonitorClaims.
Import Proc ProcFacts.

(** C1 (code_bug): the monitor measures the timeout with [time.clock()],
    the processor time of the Python process, not with wall-clock time.
    On [sleep 100] with [timeout = 5], a clock that gains 1/100 s per
    second of wall time never exceeds the timeout: no SIGTERM is sent and
    the job runs to its natural end at 100 s, past [5 + 10 + 1] s.  The same
    code with a wall clock sends SIGTERM at the first tick past 5 s. *)
Lemma controlTime_clock_is_not_wall_clock :
  controlTime sleep100 cpu_clock 5 200 = Some (mkM 100 None None [])
  /\ controlTime sleep100 wall_clock 5 200
     = Some (mkM 6 (Some 6) None [Terminate 6; Report 6 6]).
Proof. split; vm_compute; reflexivity. Qed.

(** C2: in every run of the monitor, a SIGKILL is sent only ten seconds
    after a SIGTERM, right after it in the event order, and only if the
    process was alive at each of the eleven polls of the grace window; a
    process found gone at any poll of the window is never killed. *)
Theorem controlTime_terminate_then_kill :
  forall P clock timeout fuel s',
  controlTime P clock timeout fuel = Some s' ->
  (forall t, In (Kill t) (events s') ->
     exists t0 pre post, t = t0 + 10
       /\ events s' = pre ++ Terminate t0 :: Kill t :: post
       /\ forall i, i <= 10 -> alive P (Some t0) None (t0 + i) = true)
  /\ (forall t0 i, In (Terminate t0) (events s') -> i <= 10 ->
        alive P (Some t0) None (t0 + i) = false ->
        forall t, ~ In (Kill t) (events s')).
Proof.
  intros P clock timeout fuel s' H.
  destruct (loop_outcome P clock timeout fuel _ 0 s' H)
    as [He | [(t0 & t1 & el & He & _ & _) | (t0 & el & He & Hal)]];
    rewrite He; split.
  - intros t [].
  - intros t0 i [].
  - intros t Hin. simpl in Hin. intuition discriminate.
  - intros t0' i _ _ _ t Hin. simpl in Hin. intuition discriminate.
  - intros t Hin. simpl in Hin.
    destruct Hin as [Hin | [Hin | [Hin | []]]]; try discriminate.
    injection Hin as <-. exists t0, [], [Report (t0 + 10) el].
    split; [reflexivity|]. split; [reflexivity|]. exact Hal.
  - intros t0' i Hin Hi Hdead. simpl in Hin.
    destruct Hin as [Hin | [Hin | [Hin | []]]]; try discriminate.
    injection Hin as <-. rewrite Hal in Hdead by exact Hi. discriminate.
Qed.

Lemma controlTime_terminate_then_kill_witness :
  controlTime (mkProc None None) wall_clock 5 200
    = Some (mkM 16 (Some 6) (Some 16) [Terminate 6; Kill 16; Report 16 6])
  /\ exists t0 pre post, 16 = t0 + 10
       /\ [Terminate 6; Kill 16; Report 16 6] = pre ++ Terminate t0 :: Kill 16 :: post
       /\ forall i, i <= 10 -> alive (mkProc None None) (Some t0) None (t0 + i) = true.
Proof.
  assert (H : controlTime (mkProc None None) wall_clock 5 200
    = Some (mkM 16 (Some 6) (Some 16) [Terminate 6; Kill 16; Report 16 6]))
    by (vm_compute; reflexivity).
  split; [exact H|].
  exact (proj1 (controlTime_terminate_then_kill _ _ _ _ _ H) 16
           (or_intror (or_introl eq_refl))).
Defined.

(** C7: with [timeout = 0] the monitor only polls: it sends no signal, and
    it returns exactly when the process exits by itself (never, for a
    process that does not). *)
Theorem controlTime_timeout_zero_unbounded :
  forall P clock fuel,
  controlTime P clock 0 fuel =
  match nexit P with
  | Some e => if e <? fuel then Some (mkM e None None []) else None
  | None => None
  end.
Proof.
  intros P clock fuel. unfold controlTime, init.
  rewrite loop_timeout_zero. destruct (nexit P) as [e|]; [|reflexivity].
  rewrite Nat.sub_0_r. reflexivity.
Qed.

End MonitorClaims.

Module HmsFacts.
Import Hicbem.

Lemma int_of_real_floor (q : Q) : (0 <= q)%Q -> int_of_real q = Qfloor q.
Proof.
  destruct q as [n d]. unfold int_of_real, Qfloor, Qle; simpl. intro H.
  apply Z.quot_div_nonneg; lia.
Qed.

Lemma secondsToHms_int (s : Z) : (0 <= s)%Z ->
  let '(h, m, sec) := secondsToHms s in
  (h * 3600 + m * 60 + sec = s /\ 0 <= m < 60 /\ 0 <= sec < 60)%Z.
Proof.
  intros Hs. unfold secondsToHms.
  pose proof (Z.div_mod s 3600 ltac:(lia)) as E1.
  pose proof (Z.mod_pos_bound s 3600 ltac:(lia)) as B1.
  assert (Er : (s - s / 3600 * 3600 = s mod 3600)%Z) by lia.
  rewrite Er.
  pose proof (Z.div_mod (s mod 3600) 60 ltac:(lia)) as E2.
  pose proof (Z.mod_pos_bound (s mod 3600) 60 ltac:(lia)) as B2.
  assert (M1 : (0 <= s mod 3600 / 60)%Z) by (apply Z.div_pos; lia).
  assert (M2 : (s mod 3600 / 60 < 60)%Z) by (apply Z.div_lt_upper_bound; lia).
  lia.
Qed.

Lemma secondsToHms_rat (s : Q) : (0 <= s)%Q ->
  let '(h, m, sec) := secondsToHms_real s in
  (inject_Z h * 3600 + inject_Z m * 60 + sec == s)%Q /\ (0 <= m < 60)%Z
  /\ (0 <= sec < 60)%Q.
Proof.
  intros Hs. unfold secondsToHms_real.
  assert (Hq1 : (0 <= s / 3600)%Q).
  { change (s / 3600)%Q with (s * (1 # 3600))%Q. lra. }
  rewrite (int_of_real_floor _ Hq1).
  set (h := Qfloor (s / 3600)).
  pose proof (Qfloor_le (s / 3600)) as F1.
  pose proof (Qlt_floor (s / 3600)) as F2. fold h in F1, F2.
  rewrite inject_Z_plus in F2.
  change (s / 3600)%Q with (s * (1 # 3600))%Q in F1, F2.
  assert (Hr : (0 <= (s - inject_Z h * 3600) / 60)%Q).
  { change ((s - inject_Z h * 3600) / 60)%Q with ((s - inject_Z h * 3600) * (1 # 60))%Q.
    change (inject_Z 1) with 1%Q in F2. lra. }
  rewrite (int_of_real_floor _ Hr).
  set (m := Qfloor ((s - inject_Z h * 3600) / 60)).
  pose proof (Qfloor_le ((s - inject_Z h * 3600) / 60)) as G1.
  pose proof (Qlt_floor ((s - inject_Z h * 3600) / 60)) as G2. fold m in G1, G2.
  rewrite inject_Z_plus in G2.
  change ((s - inject_Z h * 3600) / 60)%Q with ((s - inject_Z h * 3600) * (1 # 60))%Q
    in G1, G2, Hr.
  change (inject_Z 1) with 1%Q in F2, G2.
  split; [lra|]. split; [split|].
  - assert (Hm : (-1 < inject_Z m)%Q) by lra.
    change (-1)%Q with (inject_Z (-1)) in Hm. rewrite <- Zlt_Qlt in Hm. lia.
  - assert (Hm : (inject_Z m < 60)%Q) by lra.
    change 60%Q with (inject_Z 60) in Hm. rewrite <- Zlt_Qlt in Hm. exact Hm.
  - split; lra.
Qed.

End HmsFacts.

(* ------------------------------------------------------------------ *)
(** ** Claim about [secondsToHms] *)

Module HmsClaims.
Import Hicbem HmsFacts.

(** C8: for a non-negative number of seconds, [secondsToHms] returns hours,
    minutes and seconds with [hours*3600 + mins*60 + secs = seconds],
    [0 <= mins < 60] and [0 <= secs < 60]: exactly on a Python 2 [int], and
    in exact arithmetic on a fractional number. *)
Theorem secondsToHms_faithful :
  (forall s : Z, (0 <= s)%Z ->
     let '(h, m, sec) := secondsToHms s in
     (h * 3600 + m * 60 + sec = s /\ 0 <= m < 60 /\ 0 <= sec < 60)%Z)
  /\ (forall s : Q, (0 <= s)%Q ->
     let '(h, m, sec) := secondsToHms_real s in
     (inject_Z h * 3600 + inject_Z m * 60 + sec == s)%Q /\ (0 <= m < 60)%Z
     /\ (0 <= sec < 60)%Q).
Proof. split; [exact secondsToHms_int | exact secondsToHms_rat]. Qed.

Lemma secondsToHms_faithful_witness :
  secondsToHms 7384 = (2, 3, 4)%Z
  /\ (2 * 3600 + 3 * 60 + 4 = 7384 /\ 0 <= 3 < 60 /\ 0 <= 4 < 60)%Z.
Proof.
  split; [reflexivity|].
  exact (proj1 secondsToHms_faithful 7384%Z ltac:(lia)).
Defined.

End HmsClaims.

Module ParseFacts.
Import Py Hicbem.

Ltac split_ifs H :=
  repeat match type of H with
  | context [if ?c then _ else _] =>
      let E := fresh "E" in destruct c eqn:E; try discriminate H
  end.

Ltac eqb_to_eq :=
  repeat match goal with
  | E : (_ =? _)%char = true |- _ => apply Ascii.eqb_eq in E; subst
  | E : (_ || _) = true |- _ => apply orb_true_iff in E; destruct E as [E | E]
  end.

Lemma parse_arg_step (st st1 : pstate) (a : string) :
  parse_arg st a = inr st1 ->
  timemul st1 = timemul st
  /\ sp_is_t (sparam st1) = is_time_flag a
  /\ (if sp_is_t (sparam st)
      then exists n, py_int a = Some n /\ timeout st1 = (n * timemul st)%Z
      else timeout st1 = timeout st).
Proof.
  intros H. destruct a as [|c0 rest]; [discriminate|].
  unfold parse_arg in H.
  destruct (Ascii.eqb c0 "-") eqn:E0.
  - apply Ascii.eqb_eq in E0; subst c0.
    destruct (sparam st) as [sp|] eqn:Esp; [discriminate|].
    destruct rest as [|c1 rest2]; [discriminate|].
    cbn [xorb negb orb String.length Nat.ltb Nat.leb] in H.
    split_ifs H; eqb_to_eq;
      destruct rest2 as [|c2 rest3]; split_ifs H; injection H as <-;
      split; try reflexivity; split; reflexivity.
  - destruct (sparam st) as [sp|] eqn:Esp; [|discriminate].
    cbn [xorb negb orb] in H.
    assert (Hf : is_time_flag (String c0 rest) = false)
      by (destruct rest; [reflexivity|]; simpl; rewrite E0; reflexivity).
    rewrite Hf.
    split_ifs H; eqb_to_eq.
    + injection H as <-. unfold add_data.
      destruct (weighted st); repeat split.
    + destruct (py_int (String c0 rest)) as [n|] eqn:En; [|discriminate].
      injection H as <-. repeat split. exists n. split; reflexivity.
Qed.

Lemma parse_loop_timeout : forall args st acc st',
  parse_loop st args = inr st' -> timemul st = 1%Z ->
  timeout_of acc (timeout st) ->
  timeout_of (last_time_value_from (sp_is_t (sparam st)) acc args) (timeout st').
Proof.
  induction args as [|a rest IH]; intros st acc st' H Hm Ht.
  - injection H as <-. exact Ht.
  - cbn [parse_loop] in H.
    destruct (parse_arg st a) as [e|st1] eqn:Hpa; [discriminate|].
    cbn [bind] in H.
    destruct (parse_arg_step _ _ _ Hpa) as (Hm1 & Hsp & Hto).
    cbn [last_time_value_from]. rewrite <- Hsp.
    apply (IH st1 _ st' H); [rewrite Hm1; exact Hm|].
    destruct (sp_is_t (sparam st)).
    + destruct Hto as (n & Hn & Ht1). simpl. rewrite Ht1, Hm, Z.mul_1_r. exact Hn.
    + rewrite Hto. exact Ht.
Qed.

End ParseFacts.

(* ------------------------------------------------------------------ *)
(** ** Claim about [parseParams] *)

Module ParseClaims.
Import Py Hicbem ParseFacts.

(** C9: the unit suffix of [-t] has no effect: whatever the flag ([-t],
    [-ts], [-tm] or [-th]), the returned timeout is [int(v) * 1] for the
    value [v] of the last such option (0 without one), since [timemul]
    stays 1 and the flag only assigns the unused [multiplier]. *)
Theorem parseParams_timeout_ignores_unit :
  forall args u w t, parseParams args = inr (u, w, t) ->
  timeout_of (last_time_value args) t.
Proof.
  intros args u w t H. destruct args as [|a rest]; [discriminate|].
  unfold parseParams in H.
  destruct (parse_loop pinit (a :: rest)) as [e|st] eqn:E; [discriminate|].
  injection H as _ _ <-.
  exact (parse_loop_timeout _ pinit None st E eq_refl eq_refl).
Qed.

Lemma parseParams_timeout_ignores_unit_witness :
  parseParams ["-th"; "2"]%string = inr ([], [], 2%Z)
  /\ timeout_of (last_time_value ["-th"; "2"]%string) 2%Z.
Proof.
  assert (H : parseParams ["-th"; "2"]%string = inr ([], [], 2%Z))
    by (vm_compute; reflexivity).
  split; [exact H|].
  exact (parseParams_timeout_ignores_unit _ _ _ _ H).
Defined.

End ParseClaims.

(* ------------------------------------------------------------------ *)
(** ** Facts and claims about [execAlgorithm] and the algorithm loops *)

Module RunFacts.
Import Py Proc Run.

Lemma invoked_app (l1 l2 : list alog) : invoked (l1 ++ l2) = invoked l1 ++ invoked l2.
Proof.
  induction l1 as [|x l1 IH]; [reflexivity|].
  destruct x; simpl; rewrite ?IH; reflexivity.
Qed.

Lemma runApps_execute_invokes_all : forall algs j,
  (forall a e, In a algs -> arun a = inl e -> is_StandardError e = true) ->
  invoked (fst (runApps_execute algs j)) = map aname algs.
Proof.
  induction algs as [|a rest IH]; intros j Hstd; [reflexivity|].
  simpl. destruct (arun a) as [e|n] eqn:Ha.
  - rewrite (Hstd a e (or_introl eq_refl) Ha).
    destruct (runApps_execute rest j) as [l r] eqn:Er. simpl.
    f_equal. specialize (IH j (fun b e' Hb => Hstd b e' (or_intror Hb))).
    rewrite Er in IH. exact IH.
  - destruct (runApps_execute rest (j + n)%Z) as [l r] eqn:Er. simpl.
    f_equal. specialize (IH (j + n)%Z (fun b e' Hb => Hstd b e' (or_intror Hb))).
    rewrite Er in IH. exact IH.
Qed.

(** What a runner of [hicbem.benchmark] that calls [execAlgorithm] with
    valid arguments does: a [StandardError] of [Popen] is caught, another
    exception escapes, a started process returns once [controlTime] does. *)
Lemma exec_runner_cases : forall clock fuel popen algname workdir args timeout,
  algname <> ""%string -> workdir <> ""%string -> args <> [] ->
  option_map (fun r => bind r (fun _ => ret 0%Z))
    (execAlgorithm clock fuel popen algname workdir args timeout true)
  = match popen with
    | inl e => Some (if is_StandardError e then inr 0%Z else inl e)
    | inr p => match controlTime p clock timeout fuel with
               | Some _ => Some (inr 0%Z)
               | None => None
               end
    end.
Proof.
  intros clock fuel popen algname workdir args timeout H1 H2 H3. unfold execAlgorithm.
  destruct (String.eqb algname "") eqn:E1; [apply String.eqb_eq in E1; contradiction|].
  destruct (String.eqb workdir "") eqn:E2; [apply String.eqb_eq in E2; contradiction|].
  destruct args as [|x xs]; [contradiction|]. cbn [orb].
  destruct popen as [e|p].
  - destruct (is_StandardError e); reflexivity.
  - destruct (controlTime p clock timeout fuel); reflexivity.
Qed.

(** A runner that calls [execAlgorithm]: it returns when [Popen] raises a
    [StandardError] or starts a process whose monitoring ends. *)
Definition returns_ok (clock : nat -> Q) (fuel : nat) (timeout : Z) (popen : exc + proc) : Prop :=
  match popen with
  | inl e => is_StandardError e = true
  | inr p => controlTime p clock timeout fuel <> None
  end.

Lemma runner_returns : forall clock fuel popen algname workdir args timeout,
  algname <> ""%string -> workdir <> ""%string -> args <> [] ->
  returns_ok clock fuel timeout popen ->
  option_map (fun r => bind r (fun _ => ret 0%Z))
    (execAlgorithm clock fuel popen algname workdir args timeout true) = Some (inr 0%Z).
Proof.
  intros clock fuel popen algname workdir args timeout H1 H2 H3 Hr.
  rewrite exec_runner_cases by assumption. unfold returns_ok in Hr.
  destruct popen as [e|p]; [rewrite Hr; reflexivity|].
  destruct (controlTime p clock timeout fuel); [reflexivity | contradiction].
Qed.

End RunFacts.

Module RunClaims.
Import Py Proc Run RunFacts.
Local Open Scope string_scope.

(** C6: when [Popen] raises a [StandardError] (an [OSError] for a missing,
    unreadable or non-executable program), [execAlgorithm] prints the
    error, does not monitor, and returns normally. *)
Theorem execAlgorithm_spawn_error_nonfatal :
  forall clock fuel e algname workdir args timeout trace,
  is_StandardError e = true ->
  algname <> ""%string -> workdir <> ""%string -> args <> [] ->
  execAlgorithm clock fuel (inl e) algname workdir args timeout trace
  = Some (inr ((if trace then [LStarting algname] else [])
               ++ LError algname e :: (if trace then [LFinished algname] else []))%list).
Proof.
  intros clock fuel e algname workdir args timeout trace He Ha Hw Hargs.
  unfold execAlgorithm.
  destruct (String.eqb algname "") eqn:E1; [apply String.eqb_eq in E1; contradiction|].
  destruct (String.eqb workdir "") eqn:E2; [apply String.eqb_eq in E2; contradiction|].
  destruct args as [|x xs]; [contradiction|].
  simpl. rewrite He. reflexivity.
Qed.

Lemma execAlgorithm_spawn_error_nonfatal_witness :
  execAlgorithm cpu_clock 0 (inl OSError) "Louvain" "LouvainUpd" ["../exectime"; "ls"]
    0 true
  = Some (inr [LStarting "Louvain"; LError "Louvain" OSError; LFinished "Louvain"]).
Proof.
  exact (execAlgorithm_spawn_error_nonfatal cpu_clock 0 OSError "Louvain" "LouvainUpd"
           ["../exectime"; "ls"] 0 true eq_refl
           ltac:(discriminate) ltac:(discriminate) ltac:(discriminate)).
Defined.

(** C5: a [StandardError] raised while launching an algorithm stays local
    to it.  In [benchmark.runApps], every runner is invoked whatever
    [StandardError] the others raise.  In [hicbem.benchmark], the only
    [StandardError] its runners meet is the one of [Popen], which
    [execAlgorithm] catches: when each of the two spawning runners either
    fails to launch with a [StandardError] or starts a process whose
    monitoring ends, all four runners are invoked and the run completes. *)
Theorem algorithm_failure_locality :
  (forall algs j,
     (forall a e, In a algs -> arun a = inl e -> is_StandardError e = true) ->
     invoked (fst (runApps_execute algs j)) = map aname algs)
  /\ (forall clock fuel pl ph args u w t,
     Hicbem.parseParams args = inr (u, w, t) ->
     returns_ok clock fuel t pl -> returns_ok clock fuel t ph ->
     HicbemMain.benchmark clock fuel pl ph args
     = ([Invoked "execLouvain"; Invoked "execHirecs"; Invoked "execOslom2";
         Invoked "execGanxis"; Completed], HDone)).
Proof.
  split; [exact runApps_execute_invokes_all|].
  intros clock fuel pl ph args u w t Hp Hl Hh. unfold HicbemMain.benchmark.
  rewrite Hp. unfold hicbem_benchmark, HicbemMain.algors, HicbemMain.execLouvain,
    HicbemMain.execHirecs, HicbemMain.execOslom2, HicbemMain.execGanxis.
  cbn [hicbem_algs hrun hname].
  rewrite (runner_returns clock fuel pl "Louvain" "LouvainUpd" ["../exectime"; "ls"] t)
    by (assumption || discriminate).
  rewrite (runner_returns clock fuel ph "HiReCS" "." ["./hirecs"] t)
    by (assumption || discriminate).
  reflexivity.
Qed.

Lemma algorithm_failure_locality_witness :
  invoked (fst (runApps_execute
     [mkAlg "Louvain" (inl OSError); mkAlg "HiReCS" (inr 1%Z)] 1%Z))
  = ["Louvain"; "HiReCS"]
  /\ HicbemMain.benchmark wall_clock 10 (inl OSError) (inr (mkProc (Some 3) None))
       ["-t"; "5"]
     = ([Invoked "execLouvain"; Invoked "execHirecs"; Invoked "execOslom2";
         Invoked "execGanxis"; Completed], HDone).
Proof.
  split.
  - apply (proj1 algorithm_failure_locality).
    intros a e [Ha | [Ha | []]] He; subst a; simpl in He;
      [injection He as <-; reflexivity | discriminate].
  - apply (proj2 algorithm_failure_locality wall_clock 10 (inl OSError)
             (inr (mkProc (Some 3) None)) ["-t"; "5"] [] [] 5%Z).
    + vm_compute. reflexivity.
    + reflexivity.
    + unfold returns_ok. vm_compute. discriminate.
Defined.

End RunClaims.

(* ------------------------------------------------------------------ *)
(** ** Facts and claims about the execution pool *)

Module PoolFacts.
Import Pool.

Lemma fill_slots_bound : forall n cap pe ac,
  List.length ac <= cap -> List.length (snd (fill_slots n cap pe ac)) <= cap.
Proof.
  induction n as [|n IH]; intros cap pe ac Hac; [exact Hac|].
  destruct pe as [|j rest]; [exact Hac|].
  simpl. destruct (List.length ac <? cap) eqn:Hlt; [|exact Hac].
  apply IH. apply Nat.ltb_lt in Hlt. rewrite length_app. simpl. lia.
Qed.

Lemma step_invariant : forall o p,
  List.length (active p) <= capacity p ->
  capacity (step o p) = capacity p /\ List.length (active (step o p)) <= capacity p.
Proof.
  intros [j|j|] p Hp; simpl.
  - unfold fill_slots_all; simpl.
    pose proof (fill_slots_bound (List.length (pending p ++ [j])) (capacity p)
                  (pending p ++ [j]) (active p) Hp) as Hb.
    destruct (fill_slots _ _ _ _) as [pe ac]. split; [reflexivity|exact Hb].
  - destruct (existsb (Nat.eqb j) (active p)); [|split; [reflexivity|exact Hp]].
    unfold fill_slots_all; simpl.
    set (ac0 := filter (fun k => negb (Nat.eqb j k)) (active p)).
    assert (H0 : List.length ac0 <= capacity p).
    { unfold ac0. pose proof (filter_length_le (fun k => negb (Nat.eqb j k)) (active p)). lia. }
    pose proof (fill_slots_bound (List.length (pending p)) (capacity p) (pending p) ac0 H0) as Hb.
    destruct (fill_slots _ _ _ _) as [pe ac]. split; [reflexivity|exact Hb].
  - split; [reflexivity|]. simpl. lia.
Qed.

Lemma run_from_invariant : forall ops p,
  List.length (active p) <= capacity p ->
  Forall (fun q => List.length (active q) <= capacity p) (run_from p ops).
Proof.
  induction ops as [|o rest IH]; intros p Hp; simpl.
  - constructor; [exact Hp | constructor].
  - constructor; [exact Hp|].
    destruct (step_invariant o p Hp) as [Hc Hl].
    rewrite <- Hc. apply IH. rewrite Hc. exact Hl.
Qed.

End PoolFacts.

Module PoolClaims.
Import Pool PoolFacts.

(** C3, as stated: not every pool the benchmark builds has capacity
    [max(cpu_count()-1, 1)]: on 8 CPUs [runApps] builds one of capacity 4. *)
Lemma runApps_capacity_differs :
  runApps_capacity 8 = 4%Z /\ runApps_capacity 8 <> Z.max (8 - 1) 1.
Proof. split; [reflexivity | discriminate]. Qed.

(** C3, amended: in every run of a pool of capacity [C] (pool modelled from
    the spec), at most [C] jobs hold a slot; [generateNets] and
    [evalResults] build pools of capacity [max(cpu_count()-1, 1)] and
    [runApps] of capacity [max(min(4, cpu_count()-1), 1)], all at least 1. *)
Theorem pool_capacity_bound :
  (forall C ops, Forall (fun q => List.length (active q) <= C) (run_trace C ops))
  /\ (forall cpus : Z,
        generateNets_capacity cpus = Z.max (cpus - 1) 1
        /\ evalResults_capacity cpus = Z.max (cpus - 1) 1
        /\ runApps_capacity cpus = Z.max (Z.min 4 (cpus - 1)) 1
        /\ (1 <= generateNets_capacity cpus)%Z
        /\ (1 <= evalResults_capacity cpus)%Z
        /\ (1 <= runApps_capacity cpus <= 4)%Z).
Proof.
  split.
  - intros C ops. unfold run_trace.
    exact (run_from_invariant ops (mkPool C [] []) (Nat.le_0_l C)).
  - intros cpus. unfold generateNets_capacity, evalResults_capacity, runApps_capacity.
    repeat split; lia.
Qed.

End PoolClaims.

(* ------------------------------------------------------------------ *)
(** ** Claim about the per-file loop of [evalResults] *)

Module EvalClaims.
Import Py Eval.

(** C10: with a non-empty [datafiles], the loop calls [evaluate] with three
    arguments while it takes four, so the first call raises [TypeError],
    which escapes [evalResults]. *)
Theorem datafiles_loop_type_error :
  forall evalAlgorithm evalalgs fileext jobsnum asym basefile rest,
  datafiles_loop (evaluate evalAlgorithm evalalgs) fileext jobsnum
    ((asym, basefile) :: rest) = inl TypeError.
Proof. intros. reflexivity. Qed.

End EvalClaims.

(* ------------------------------------------------------------------ *)
(** ** Facts about the string helpers and [benchmark.parseParams] *)

Module BenchFacts.
Import Py PyStr Bench BenchProps.

Lemma list_ascii_of_string_app (s t : string) :
  list_ascii_of_string (s ++ t) = list_ascii_of_string s ++ list_ascii_of_string t.
Proof. induction s as [|c s IH]; simpl; [reflexivity | rewrite IH; reflexivity]. Qed.

Lemma endswith_append_slash (s : string) : endswith "/" (s ++ "/") = true.
Proof.
  unfold endswith. rewrite list_ascii_of_string_app. simpl.
  rewrite rev_app_distr. reflexivity.
Qed.


Lemma parse_g_wf (st st' : bstate) (arg : string) :
  bwf st -> parse_g st arg = inr st' -> bwf st'.
Proof.
  intros (H1 & H2 & H3 & H4 & H5) H. unfold parse_g in H. cbv zeta in H.
  destruct (String.length arg =? 2) eqn:E2.
  { injection H as <-. repeat split; assumption. }
  destruct (String.get 2 arg) as [c2|]; [|discriminate].
  destruct (negb (Hicbem.char_in c2 "f=") || _)%bool; [discriminate|].
  set (st1 := if Ascii.eqb c2 "f" then set_gensynt (set_gensynt st 1) 2
              else set_gensynt st 1) in H.
  assert (Hw1 : bwf st1) by (unfold st1; destruct (Ascii.eqb c2 "f"); repeat split; assumption).
  clearbody st1. clear H1 H2 H3 H4 H5.
  destruct (negb (_ =? -1)%Z); [|injection H as <-; exact Hw1].
  set (val := split1 _ _) in H.
  set (inner := if negb (String.eqb (hd EmptyString val) "") then _ else _) in H.
  assert (Hin : forall st2, inner = inr st2 -> bwf st2).
  { intros st2 Hi. unfold inner in Hi. destruct Hw1 as (H1 & H2 & H3 & H4 & H5).
    destruct (negb _); [|injection Hi as <-; repeat split; assumption].
    destruct (if negb (String.eqb _ "") then _ else _) as [e|ni] eqn:Eni; [discriminate|].
    cbn [bind] in Hi.
    destruct (if (1 <? _)%nat then _ else _) as [e|sn] eqn:Esn; [discriminate|].
    cbn [bind] in Hi.
    destruct ((ni <? 0)%Z || (sn <? 0)%Z)%bool eqn:Er; [discriminate|].
    apply orb_false_iff in Er as [Er1 Er2].
    apply Z.ltb_ge in Er1, Er2.
    injection Hi as <-. repeat split; assumption. }
  destruct inner as [e|st2] eqn:Ei; [discriminate|]. cbn [bind] in H.
  specialize (Hin st2 eq_refl).
  destruct (1 <? List.length val)%nat; [|injection H as <-; exact Hin].
  destruct (String.eqb (nth 1 val EmptyString) EmptyString); [discriminate|].
  injection H as <-. destruct Hin as (H1 & H2 & H3 & H4 & H5).
  repeat split; try assumption. simpl.
  destruct (endswith "/" (strip_chars quotes (nth 1 val EmptyString))) eqn:Ee;
    [exact Ee | apply endswith_append_slash].
Qed.

Lemma bparse_arg_wf pf (st st' : bstate) (arg : string) :
  bwf st -> bparse_arg pf st arg = inr st' -> bwf st'.
Proof.
  intros Hw H. destruct arg as [|c0 rest]; [discriminate|].
  unfold bparse_arg in H.
  destruct (negb (Ascii.eqb c0 "-")); [discriminate|].
  destruct rest as [|c1 rest2]; [discriminate|].
  destruct Hw as (H1 & H2 & H3 & H4 & H5).
  destruct (Ascii.eqb c1 "g"); [exact (parse_g_wf _ _ _ (conj H1 (conj H2 (conj H3 (conj H4 H5)))) H)|].
  destruct (Ascii.eqb c1 "a").
  { unfold parse_a in H. destruct (negb _); [discriminate|].
    injection H as <-. repeat split; assumption. }
  destruct (Ascii.eqb c1 "c").
  { unfold parse_c in H. destruct (bad_suffix _ _); [discriminate|].
    injection H as <-. repeat split; try assumption. simpl.
    destruct (Hicbem.char_in "f" _), (Hicbem.char_in "r" _); simpl; tauto. }
  destruct (Ascii.eqb c1 "r").
  { unfold parse_r in H. destruct (negb _); [discriminate|].
    injection H as <-. repeat split; assumption. }
  destruct (Ascii.eqb c1 "e").
  { unfold parse_e in H. destruct (bad_suffix _ _); [discriminate|].
    destruct (_ || _)%bool.
    - injection H as <-. repeat split; try assumption. simpl; tauto.
    - destruct (String.get _ _) as [c2|]; [|discriminate].
      destruct (Ascii.eqb c2 "n"); injection H as <-; repeat split; try assumption;
        simpl; tauto. }
  destruct (Ascii.eqb c1 "d" || Ascii.eqb c1 "f")%bool.
  { unfold parse_df in H. destruct (_ =? -1)%Z; [discriminate|].
    destruct (String.get _ _) as [c2|]; [|discriminate].
    destruct (_ || _)%bool; [discriminate|].
    destruct (if Ascii.eqb c2 "g" then _ else _) as [e|v]; [discriminate|].
    injection H as <-. repeat split; assumption. }
  destruct (Ascii.eqb c1 "t"); [|discriminate].
  unfold parse_t in H. destruct (_ =? -1)%Z; [discriminate|].
  destruct (String.get _ _) as [c2|]; [|discriminate].
  destruct (_ || _)%bool; [discriminate|].
  destruct (pf _); [|discriminate].
  injection H as <-. repeat split; assumption.
Qed.

Lemma bparse_loop_wf pf : forall args st st',
  bwf st -> bparse_loop pf st args = inr st' -> bwf st'.
Proof.
  induction args as [|a rest IH]; intros st st' Hw H.
  - injection H as <-. exact Hw.
  - cbn [bparse_loop] in H.
    destruct (bparse_arg pf st a) as [e|st1] eqn:E; [discriminate|].
    exact (IH st1 st' (bparse_arg_wf pf st st1 a Hw E) H).
Qed.

End BenchFacts.

Module BenchTime.
Import Py PyStr Bench BenchProps BenchFacts.

Ltac crush_res H :=
  repeat (unfold bind, ret, raise in H;
    match type of H with
    | inl _ = inr _ => discriminate H
    | inr _ = inr _ => injection H as <-
    | context [if ?c then _ else _] => let E := fresh "E" in destruct c eqn:E
    | context [match ?x with Some _ => _ | None => _ end] =>
        let E := fresh "E" in destruct x eqn:E
    | context [match ?x with inl _ => _ | inr _ => _ end] =>
        let E := fresh "E" in destruct x eqn:E
    end).

Lemma parse_g_time (st st' : bstate) (arg : string) :
  parse_g st arg = inr st' -> timeout st' = timeout st /\ timemul st' = timemul st.
Proof.
  intros H. unfold parse_g, int_or_raise in H. cbv zeta in H.
  crush_res H;
    repeat match goal with |- context [if ?c then _ else _] => destruct c end;
    split; reflexivity.
Qed.

Lemma bparse_arg_time pf (st st' : bstate) (a : string) :
  bparse_arg pf st a = inr st' ->
  timemul st' = match tflag a with
                | Some "m"%char => 60%Q
                | Some "h"%char => 3600%Q
                | _ => timemul st
                end
  /\ match tflag a with
     | Some _ => exists x, pf (sdrop (Z.to_nat (find_char "=" a 2 + 1)) a) = Some x
                           /\ timeout st' = (x * timemul st')%Q
     | None => timeout st' = timeout st
     end.
Proof.
  intros H. destruct a as [|c0 rest]; [discriminate|].
  unfold bparse_arg in H.
  destruct (Ascii.eqb c0 "-") eqn:E0; [|discriminate].
  apply Ascii.eqb_eq in E0; subst c0.
  destruct rest as [|c1 rest2]; [discriminate|].
  destruct (Ascii.eqb c1 "g") eqn:Eg.
  { apply Ascii.eqb_eq in Eg; subst c1. cbn [tflag].
    destruct (parse_g_time _ _ _ H) as [-> ->]. split; reflexivity. }
  destruct (Ascii.eqb c1 "a") eqn:Ea.
  { apply Ascii.eqb_eq in Ea; subst c1. cbn [tflag].
    unfold parse_a in H. crush_res H. split; reflexivity. }
  destruct (Ascii.eqb c1 "c") eqn:Ec.
  { apply Ascii.eqb_eq in Ec; subst c1. cbn [tflag].
    unfold parse_c in H. cbv zeta in H. crush_res H; split; reflexivity. }
  destruct (Ascii.eqb c1 "r") eqn:Er.
  { apply Ascii.eqb_eq in Er; subst c1. cbn [tflag].
    unfold parse_r in H. crush_res H. split; reflexivity. }
  destruct (Ascii.eqb c1 "e") eqn:Ee.
  { apply Ascii.eqb_eq in Ee; subst c1. cbn [tflag].
    unfold parse_e in H. cbv zeta in H. crush_res H; split; reflexivity. }
  destruct (Ascii.eqb c1 "d" || Ascii.eqb c1 "f")%bool eqn:Edf.
  { assert (Ht : tflag (String "-" (String c1 rest2)) = None).
    { apply orb_true_iff in Edf as [E|E]; apply Ascii.eqb_eq in E; subst c1; reflexivity. }
    rewrite Ht. unfold parse_df in H. cbv zeta in H. crush_res H; split; reflexivity. }
  destruct (Ascii.eqb c1 "t") eqn:Et; [|discriminate].
  apply Ascii.eqb_eq in Et; subst c1.
  unfold parse_t in H. cbv zeta in H.
  destruct (_ =? -1)%Z; [discriminate|].
  destruct rest2 as [|c2 rest3]; [discriminate|].
  cbn [String.get tflag] in *.
  crush_res H; cbn [timemul timeout set_time];
    repeat match goal with
    | E : (_ =? _)%char = true |- _ => apply Ascii.eqb_eq in E; subst
    end;
    (split; [|eexists; split; reflexivity]);
    try reflexivity;
    destruct c2 as [[] [] [] [] [] [] [] []]; try reflexivity; discriminate.
Qed.


Lemma bparse_loop_time pf t0 : forall args st acc st',
  bparse_loop pf st args = inr st' -> tinv pf t0 acc st ->
  timemul st' = last_unit (timemul st) args
  /\ tinv pf t0 (last_tvalue acc args) st'.
Proof.
  induction args as [|a rest IH]; intros st acc st' H Hinv.
  - injection H as <-. split; [reflexivity | exact Hinv].
  - cbn [bparse_loop] in H.
    destruct (bparse_arg pf st a) as [e|st1] eqn:E; [discriminate|].
    cbn [bind] in H.
    destruct (bparse_arg_time pf st st1 a E) as [Hm Ht].
    cbn [last_unit last_tvalue]. rewrite <- Hm.
    apply (IH st1 _ st' H).
    destruct (tflag a) as [c|].
    + exact Ht.
    + destruct acc as [v|]; simpl in *; rewrite Ht; [|exact Hinv].
      destruct Hinv as (x & Hx & Hto). exists x. split; [exact Hx|].
      rewrite Hto, Hm. reflexivity.
Qed.

End BenchTime.

Module PrepFacts.
Import Py PyStr Prep PrepProps BenchFacts.


Lemma endswith_app (c : ascii) (s t : string) :
  t <> EmptyString -> endswith c (s ++ t) = endswith c t.
Proof.
  intros Ht. unfold endswith. rewrite list_ascii_of_string_app, rev_app_distr.
  destruct t as [|x t]; [contradiction|]. simpl.
  destruct (rev (list_ascii_of_string t)); reflexivity.
Qed.

Section Fs.

Variable glob : string -> list string.
Variable isdir : string -> bool.
Variable prepareDir : string -> string -> res unit.

Lemma prep_nets_ok : forall asym nets dd dd',
  Forall dir_ok dd -> prep_nets prepareDir asym nets dd = inr dd' -> Forall dir_ok dd'.
Proof.
  induction nets as [|n rest IH]; intros dd dd' Hdd H.
  - injection H as <-. exact Hdd.
  - cbn [prep_nets] in H. destruct (prepareDir _ n) as [e|u]; [discriminate|].
    cbn [bind] in H. refine (IH _ _ _ H). apply Forall_app; split; [exact Hdd|].
    constructor; [apply endswith_append_slash | constructor].
Qed.

Lemma prep_path_ok : forall asym gen p dd df dd' df',
  Forall dir_ok dd -> prep_path glob isdir prepareDir asym gen p (dd, df) = inr (dd', df') ->
  Forall dir_ok dd'.
Proof.
  intros asym gen p dd df dd' df' Hdd H. unfold prep_path in H.
  destruct (isdir p).
  - set (p' := if endswith "/" p then p else (p ++ "/")%string) in H.
    assert (Hp' : endswith "/" p' = true).
    { unfold p'. destruct (endswith "/" p) eqn:E; [exact E | apply endswith_append_slash]. }
    destruct gen.
    + destruct (prep_nets prepareDir asym _ dd) as [e|dd1] eqn:E; [discriminate|].
      injection H as <- <-. exact (prep_nets_ok _ _ _ _ Hdd E).
    + injection H as <- <-. apply Forall_app; split; [exact Hdd|].
      constructor; [exact Hp' | constructor].
  - destruct gen.
    + destruct (prepareDir _ p); [discriminate|]. injection H as <- <-. exact Hdd.
    + injection H as <- <-. exact Hdd.
Qed.

Lemma prep_paths_ok : forall asym gen ps dd df dd' df',
  Forall dir_ok dd -> prep_paths glob isdir prepareDir asym gen ps (dd, df) = inr (dd', df') ->
  Forall dir_ok dd'.
Proof.
  induction ps as [|p rest IH]; intros dd df dd' df' Hdd H.
  - injection H as <- <-. exact Hdd.
  - cbn [prep_paths] in H.
    destruct (prep_path glob isdir prepareDir asym gen p (dd, df)) as [e|[dd1 df1]] eqn:E;
      [discriminate|].
    exact (IH dd1 df1 dd' df' (prep_path_ok _ _ _ _ _ _ _ Hdd E) H).
Qed.

Lemma prep_datas_ok : forall ds dd df dd' df',
  Forall dir_ok dd -> prep_datas glob isdir prepareDir ds (dd, df) = inr (dd', df') ->
  Forall dir_ok dd'.
Proof.
  induction ds as [|[[asym wpath] gen] rest IH]; intros dd df dd' df' Hdd H.
  - injection H as <- <-. exact Hdd.
  - cbn [prep_datas] in H.
    destruct (prep_paths glob isdir prepareDir asym gen (glob wpath) (dd, df))
      as [e|[dd1 df1]] eqn:E; [discriminate|].
    exact (IH dd1 df1 dd' df' (prep_paths_ok _ _ _ _ _ _ _ Hdd E) H).
Qed.

Lemma prepareInput_ok : forall ds dd df,
  prepareInput glob isdir prepareDir ds = inr (dd, df) -> Forall dir_ok dd.
Proof.
  intros [|d ds] dd df H; unfold prepareInput in H.
  - injection H as <- <-. constructor.
  - exact (prep_datas_ok _ [] [] dd df (Forall_nil _) H).
Qed.

End Fs.

Lemma add_synthetic_ok (g : Z) (sd : string) (dd df dd' df' : list (option bool * string)) :
  Forall dir_ok dd -> add_synthetic g sd (dd, df) = (dd', df') ->
  (dd' <> [] \/ df' <> []) /\ Forall dir_ok dd'.
Proof.
  intros Hdd H. unfold add_synthetic in H.
  destruct (negb (g =? 0)%Z || _)%bool eqn:Ec.
  - injection H as <- <-. split.
    + left. destruct dd; discriminate.
    + apply Forall_app; split; [exact Hdd|]. constructor; [|constructor].
      unfold dir_ok; simpl. rewrite endswith_app by discriminate. reflexivity.
  - injection H as <- <-. split; [|exact Hdd].
    apply orb_false_iff in Ec as [_ Ec].
    destruct dd; [destruct df; [discriminate|right; discriminate] | left; discriminate].
Qed.

End PrepFacts.

Module ShufFacts.
Import Py PyStr Shuf ShufProps.






Lemma scheduled_app (l1 l2 : list sevent) : scheduled (l1 ++ l2) = scheduled l1 ++ scheduled l2.
Proof.
  induction l1 as [|x l1 IH]; [reflexivity|]. destruct x; simpl; rewrite IH; reflexivity.
Qed.

Section Shuffle.

Variable removable : string -> bool.
Variable shufnum : Z.
Hypothesis Hs : (1 <= shufnum)%Z.

Lemma shuffleNet_cases (f : string) :
  shuffleNet removable shufnum f =
  match second_ext f with
  | EmptyString => ([Scheduled (fst (shuffle_job f)) (snd (shuffle_job f))], ret shufnum)
  | String _ idx =>
      match py_int idx with
      | Some k =>
          if (shufnum <? k)%Z then
            (if removable f then ([Removed f], ret 0%Z) else ([], raise OSError))
          else ([], ret 0%Z)
      | None => ([], raise ValueError)
      end
  end.
Proof.
  unfold shuffleNet, second_ext, shuffle_job, shuffle.
  destruct (path_split f) as [path name]. cbn [fst snd].
  destruct (snd (splitext (fst (splitext name)))); [|reflexivity].
  destruct (shufnum <? 1)%Z eqn:E; [apply Z.ltb_lt in E; lia | reflexivity].
Qed.

Lemma shuffle_files_ok : forall files c ev c',
  shuffle_files removable shufnum files c = (ev, inr c') ->
  c' = (c + Z.of_nat (List.length (filter is_base files)) * shufnum)%Z
  /\ scheduled ev = map shuffle_job (filter is_base files)
  /\ (forall g, In (Removed g) ev ->
        In g files /\ exists d idx k, second_ext g = String d idx /\ py_int idx = Some k
                                    /\ (shufnum < k)%Z).
Proof.
  induction files as [|f rest IH]; intros c ev c' H.
  - cbn in H. injection H as <- <-. simpl. split; [lia|]. split; [reflexivity|]. intros g [].
  - cbn [shuffle_files] in H. rewrite shuffleNet_cases in H.
    cbn [filter].
    destruct (second_ext f) as [|d idx] eqn:Ee.
    + replace (is_base f) with true by (unfold is_base; rewrite Ee; reflexivity).
      unfold raise, ret in H.
      destruct (shuffle_files removable shufnum rest (c + shufnum)%Z) as [l' r'] eqn:Er.
      injection H as <- ->.
      destruct (IH _ _ _ Er) as (Hc & Hsch & Hrm).
      split; [rewrite Hc; cbn [List.length]; lia|]. split.
      * cbn [app scheduled map]. rewrite Hsch. reflexivity.
      * intros g [Hg | Hg]; [discriminate|].
        destruct (Hrm g Hg) as [Hin Hx]. split; [right; exact Hin | exact Hx].
    + replace (is_base f) with false by (unfold is_base; rewrite Ee; reflexivity).
      destruct (py_int idx) as [k|] eqn:Ek; [|discriminate].
      destruct (shufnum <? k)%Z eqn:Elt; [destruct (removable f)|]; unfold ret, raise in H;
        [| discriminate |].
      * destruct (shuffle_files removable shufnum rest (c + 0)%Z) as [l' r'] eqn:Er.
        injection H as <- ->.
        destruct (IH _ _ _ Er) as (Hc & Hsch & Hrm).
        split; [lia|]. split; [exact Hsch|].
        intros g [Hg | Hg].
        -- injection Hg as <-. split; [left; reflexivity|].
           exists d, idx, k. split; [exact Ee|]. split; [exact Ek|]. apply Z.ltb_lt, Elt.
        -- destruct (Hrm g Hg) as [Hin Hx]. split; [right; exact Hin | exact Hx].
      * destruct (shuffle_files removable shufnum rest (c + 0)%Z) as [l' r'] eqn:Er.
        injection H as <- ->.
        destruct (IH _ _ _ Er) as (Hc & Hsch & Hrm).
        split; [lia|]. split; [exact Hsch|].
        intros g Hg. destruct (Hrm g Hg) as [Hin Hx]. split; [right; exact Hin | exact Hx].
Qed.

Lemma shuffle_files_outcome : forall files c,
  match snd (shuffle_files removable shufnum files c) with
  | inl e => (e = ValueError /\ existsb bad_index files = true)
             \/ (e = OSError /\ existsb (stuck removable shufnum) files = true)
  | inr _ => existsb bad_index files = false
             /\ existsb (stuck removable shufnum) files = false
  end.
Proof.
  induction files as [|f rest IH]; intros c; [split; reflexivity|].
  cbn [shuffle_files existsb]. rewrite shuffleNet_cases.
  destruct (second_ext f) as [|d idx] eqn:Ee.
  - replace (bad_index f) with false by (unfold bad_index; rewrite Ee; reflexivity).
    replace (stuck removable shufnum f) with false by (unfold stuck; rewrite Ee; reflexivity).
    unfold ret. specialize (IH (c + shufnum)%Z).
    destruct (shuffle_files removable shufnum rest (c + shufnum)%Z) as [l' r']. exact IH.
  - destruct (py_int idx) as [k|] eqn:Ek.
    + replace (bad_index f) with false by (unfold bad_index; rewrite Ee, Ek; reflexivity).
      destruct (shufnum <? k)%Z eqn:Elt; [destruct (removable f) eqn:Er|].
      * replace (stuck removable shufnum f) with false
          by (unfold stuck; rewrite Ee, Ek, Elt, Er; reflexivity).
        unfold ret. specialize (IH (c + 0)%Z).
        destruct (shuffle_files removable shufnum rest (c + 0)%Z) as [l' r']. exact IH.
      * replace (stuck removable shufnum f) with true
          by (unfold stuck; rewrite Ee, Ek, Elt, Er; reflexivity).
        right. split; reflexivity.
      * replace (stuck removable shufnum f) with false
          by (unfold stuck; rewrite Ee, Ek, Elt; reflexivity).
        unfold ret. specialize (IH (c + 0)%Z).
        destruct (shuffle_files removable shufnum rest (c + 0)%Z) as [l' r']. exact IH.
    + replace (bad_index f) with true by (unfold bad_index; rewrite Ee, Ek; reflexivity).
      left. split; reflexivity.
Qed.

End Shuffle.

End ShufFacts.

Module ConvFacts.
Import Py PyStr Eval Conv ConvProps ShufProps ShufFacts.



Lemma take_nonslash_split : forall l,
  l = take_nonslash l ++ skipn (List.length (take_nonslash l)) l
  /\ slash_free (take_nonslash l)
  /\ rest_ok (skipn (List.length (take_nonslash l)) l).
Proof.
  induction l as [|c l IH]; [repeat split; constructor|].
  cbn [take_nonslash]. destruct (is_slash c) eqn:E.
  - cbn. split; [reflexivity|]. split; [constructor|].
    unfold is_slash in E. apply Ascii.eqb_eq in E. exact E.
  - destruct IH as (H1 & H2 & H3). cbn [List.length skipn app].
    split; [f_equal; exact H1|]. split; [constructor; assumption | exact H3].
Qed.

Lemma comp_has_nondot_app : forall r rest,
  slash_free r -> rest_ok rest -> comp_has_nondot (r ++ rest) = comp_has_nondot r.
Proof.
  induction r as [|c r IH]; intros rest Hr Hrest.
  - destruct rest as [|c rest]; [reflexivity|]. cbn in Hrest. subst c. reflexivity.
  - inversion Hr as [|? ? Hc Hr']; subst. cbn [app comp_has_nondot].
    unfold is_slash in Hc. rewrite Hc. rewrite (IH rest Hr' Hrest). reflexivity.
Qed.

Lemma split_last_dot_app : forall r rest,
  slash_free r -> rest_ok rest ->
  split_last_dot (r ++ rest) = option_map (fun x => x ++ rest) (split_last_dot r).
Proof.
  induction r as [|c r IH]; intros rest Hr Hrest.
  - destruct rest as [|c rest]; [reflexivity|]. cbn in Hrest. subst c. reflexivity.
  - inversion Hr as [|? ? Hc Hr']; subst. cbn [app split_last_dot].
    unfold is_slash in Hc. rewrite Hc.
    destruct (Ascii.eqb c ".").
    + rewrite (comp_has_nondot_app r rest Hr' Hrest).
      destruct (comp_has_nondot r); reflexivity.
    + exact (IH rest Hr' Hrest).
Qed.

Lemma split_last_dot_suffix : forall l r,
  split_last_dot l = Some r -> exists c pre, l = c :: pre ++ r.
Proof.
  induction l as [|c l IH]; intros r H; [discriminate|].
  cbn [split_last_dot] in H.
  destruct (Ascii.eqb c "/"); [discriminate|].
  destruct (Ascii.eqb c ".").
  - destruct (comp_has_nondot l); [|discriminate]. injection H as <-.
    exists c, []. reflexivity.
  - destruct (IH r H) as (c' & pre & ->). exists c, (c' :: pre). reflexivity.
Qed.

Lemma sdrop_length : forall n s, String.length (sdrop n s) = String.length s - n.
Proof.
  induction n as [|n IH]; intros [|c s]; cbn [sdrop String.length]; try lia.
  rewrite IH. reflexivity.
Qed.

Lemma length_list_ascii (s : string) : List.length (list_ascii_of_string s) = String.length s.
Proof. induction s as [|c s IH]; cbn; congruence. Qed.



Lemma ext_is_empty_no_dot (p : string) :
  ext_is_empty p = no_dot (rev (list_ascii_of_string p)).
Proof.
  unfold ext_is_empty, splitext, no_dot.
  destruct (split_last_dot (rev (list_ascii_of_string p))) as [r|] eqn:E; [|reflexivity].
  cbn [snd]. destruct (split_last_dot_suffix _ _ E) as (c & pre & Hl).
  assert (Hlen : List.length r < String.length p).
  { rewrite <- length_list_ascii, <- (length_rev (list_ascii_of_string p)), Hl. cbn [List.length].
    rewrite length_app. lia. }
  destruct (sdrop (List.length r) p) eqn:Ed; [|reflexivity].
  pose proof (sdrop_length (List.length r) p) as Hs. rewrite Ed in Hs. cbn in Hs. lia.
Qed.


Lemma rev_root (p : string) : rev (list_ascii_of_string (fst (splitext p))) = root_rev p.
Proof.
  unfold splitext, root_rev.
  destruct (split_last_dot (rev (list_ascii_of_string p))); [|reflexivity].
  cbn [fst]. rewrite list_ascii_of_string_of_list_ascii, rev_involutive. reflexivity.
Qed.

(** [convertNets] tests the whole path, [shuffleNet] the file name; both
    select the same networks. *)
Lemma not_shuffle_is_base (net : string) : not_shuffle net = is_base net.
Proof.
  assert (Hns : not_shuffle net = no_dot (root_rev net)).
  { rewrite <- rev_root, <- ext_is_empty_no_dot. unfold not_shuffle, ext_is_empty. reflexivity. }
  assert (Hb : is_base net = no_dot (root_rev (snd (path_split net)))).
  { rewrite <- rev_root, <- ext_is_empty_no_dot. unfold is_base, second_ext, ext_is_empty.
    reflexivity. }
  rewrite Hns, Hb. unfold path_split. cbn [snd]. unfold root_rev.
  rewrite list_ascii_of_string_of_list_ascii, rev_involutive.
  destruct (take_nonslash_split (rev (list_ascii_of_string net))) as (Hl & Hsf & Hro).
  set (tl := take_nonslash (rev (list_ascii_of_string net))) in *.
  set (rest := skipn (List.length tl) (rev (list_ascii_of_string net))) in *.
  rewrite Hl, (split_last_dot_app tl rest Hsf Hro).
  destruct (split_last_dot tl) as [r|] eqn:E; cbn [option_map].
  - destruct (split_last_dot_suffix _ _ E) as (c & pre & Htl).
    assert (Hr : slash_free r).
    { unfold slash_free in Hsf. rewrite Htl in Hsf. inversion Hsf; subst.
      apply Forall_app in H2 as [_ H2]. exact H2. }
    unfold no_dot. rewrite (split_last_dot_app r rest Hr Hro).
    destruct (split_last_dot r); reflexivity.
  - unfold no_dot. rewrite (split_last_dot_app tl rest Hsf Hro), E. reflexivity.
Qed.

Section Convert.

Variable glob : string -> list string.
Variable pyexec : string.

Lemma convert_loop_eq : forall nets asym overwrite resdub n,
  convert_loop pyexec nets asym overwrite resdub n =
  (flat_map (fun net => convertNet pyexec true net asym overwrite resdub) (filter is_base nets),
   (n + Z.of_nat (List.length (filter is_base nets)))%Z).
Proof.
  induction nets as [|net rest IH]; intros asym overwrite resdub n.
  - cbn. f_equal. lia.
  - cbn [convert_loop filter]. rewrite not_shuffle_is_base.
    destruct (is_base net).
    + rewrite IH. cbn [flat_map List.length]. f_equal. lia.
    + rewrite IH. reflexivity.
Qed.

Lemma convert_dirs_pool : forall pool overwrite resdub datadirs,
  datadirs <> [] -> snd (convert_dirs glob pyexec pool overwrite resdub datadirs) = false.
Proof.
  intros pool overwrite resdub datadirs.
  revert pool. induction datadirs as [|[asym ddir] rest IH]; intros pool Hne; [contradiction|].
  cbn [convert_dirs]. unfold convertNets.
  destruct (convert_loop pyexec _ asym overwrite resdub 0) as [l n].
  destruct rest as [|d rest'].
  - reflexivity.
  - specialize (IH false ltac:(discriminate)).
    destruct (convert_dirs glob pyexec false overwrite resdub (d :: rest')) as [l' p'].
    exact IH.
Qed.

End Convert.

End ConvFacts.

Module AppsFacts.
Import Py PyStr Run Apps AppsProps.


Lemma execute_total : forall algs j,
  (forall a e, In a algs -> arun a = inl e -> is_StandardError e = true) ->
  snd (runApps_execute algs j) = inr (j + counts algs)%Z.
Proof.
  induction algs as [|a rest IH]; intros j Hstd; cbn [runApps_execute counts].
  - cbn [snd]. unfold ret. f_equal. lia.
  - assert (Hr : forall b e, In b rest -> arun b = inl e -> is_StandardError e = true)
      by (intros b e Hb; exact (Hstd b e (or_intror Hb))).
    destruct (arun a) as [e|n] eqn:Ha.
    + rewrite (Hstd a e (or_introl eq_refl) Ha).
      specialize (IH j Hr). destruct (runApps_execute rest j) as [l r].
      cbn [snd] in *. rewrite IH. f_equal; lia.
    + specialize (IH (j + n)%Z Hr). destruct (runApps_execute rest (j + n)%Z) as [l r].
      cbn [snd] in *. rewrite IH. f_equal; lia.
Qed.



Lemma runners_in_std lo hi algs timeout asym net :
  (forall a, In a algs ->
     match snd a net asym timeout with
     | inr n => (lo <= n <= hi)%Z
     | inl e => is_StandardError e = true
     end) ->
  forall b e, In b (runner_algs algs net asym timeout) -> arun b = inl e ->
  is_StandardError e = true.
Proof.
  intros H b e Hb He. unfold runner_algs in Hb. apply in_map_iff in Hb as (a & <- & Ha).
  specialize (H a Ha). destruct a as [an af]. cbn [arun snd] in He, H. rewrite He in H. exact H.
Qed.

Lemma counts_bounds lo hi algs timeout asym net :
  (0 <= lo)%Z ->
  (forall a, In a algs ->
     match snd a net asym timeout with
     | inr n => (lo <= n <= hi)%Z
     | inl e => is_StandardError e = true
     end) ->
  (0 <= counts (runner_algs algs net asym timeout))%Z
  /\ (hi = 0%Z -> counts (runner_algs algs net asym timeout) = 0%Z).
Proof.
  intros Hlo. induction algs as [|a rest IH]; intros H; cbn [runner_algs map counts].
  - lia.
  - assert (Hr := IH (fun b Hb => H b (or_intror Hb))). unfold runner_algs in Hr.
    specialize (H a (or_introl eq_refl)). destruct a as [an af]. cbn [arun snd] in H |- *.
    destruct (af net asym timeout) as [e|n]; lia.
Qed.

Lemma apps_nets_counts : forall algs timeout hi nets j c,
  (1 <= j)%Z -> runners_in 0 hi algs timeout nets ->
  exists j', snd (apps_nets algs timeout nets j c) = inr (j', (c + Z.of_nat (List.length nets))%Z)
    /\ (2 ^ Z.of_nat (List.length nets) * j <= j')%Z
    /\ (hi = 0%Z -> j' = (2 ^ Z.of_nat (List.length nets) * j)%Z).
Proof.
  intros algs timeout hi nets. induction nets as [|[asym net] rest IH]; intros j c Hj Hr.
  - exists j. cbn [apps_nets snd List.length]. unfold ret.
    split; [f_equal; f_equal; lia|]. split; [lia|]. intros _. lia.
  - cbn [apps_nets].
    assert (Hnet : forall a, In a algs ->
              match snd a net asym timeout with
              | inr n => (0 <= n <= hi)%Z
              | inl e => is_StandardError e = true
              end) by (intros a Ha; exact (Hr a asym net Ha (or_introl eq_refl))).
    pose proof (execute_total (runner_algs algs net asym timeout) j
                  (runners_in_std _ _ _ _ _ _ Hnet)) as He.
    pose proof (counts_bounds 0 hi algs timeout asym net ltac:(lia) Hnet) as Hc.
    set (S := counts (runner_algs algs net asym timeout)) in *.
    unfold runner_algs in He.
    destruct (runApps_execute _ j) as [l r]. cbn [snd] in He. subst r.
    replace ((j + S =? 0)%Z) with false by (symmetry; apply Z.eqb_neq; lia).
    destruct (IH (j + (j + S))%Z (c + 1)%Z ltac:(lia)
                (fun a asym' net' Ha Hn => Hr a asym' net' Ha (or_intror Hn)))
      as (j' & Hres & Hle & Hz).
    destruct (apps_nets algs timeout rest (j + (j + S))%Z (c + 1)%Z) as [l' r'].
    cbn [snd] in Hres |- *. subst r'.
    exists j'. cbn [List.length]. rewrite Nat2Z.inj_succ, Z.pow_succ_r by lia.
    assert (Hp : (0 <= 2 ^ Z.of_nat (List.length rest))%Z) by (apply Z.pow_nonneg; lia).
    split; [f_equal; f_equal; lia|]. split; [nia|].
    intros H0. subst hi. rewrite Hz by reflexivity.
    assert (S = 0%Z) by lia. rewrite H. ring.
Qed.

End AppsFacts.

Module EvalResFacts.
Import Py Eval Apps EvalRes.

Section Ev.

Variable glob : string -> list string.
Variable evalAlgorithm : string -> string -> string -> res unit.
Variable default_evalalgs : res (list string).
Variable extclnodes : string.

Lemma eval_measure_zero : forall algorithms dd df m j,
  eval_measure glob evalAlgorithm default_evalalgs algorithms dd df m = inr j -> j = 0%Z.
Proof.
  intros algorithms dd df m j H. unfold eval_measure, bind, ret in H.
  destruct (match algorithms with
            | Some ((_ :: _) as l) => inr (map PyStr.lower l)
            | _ => default_evalalgs end) as [e|ea]; [discriminate|].
  destruct (eval_dirs _ _ _ _ _ _); [discriminate|].
  destruct (datafiles_loop _ _ _ _); [discriminate|].
  injection H as <-. reflexivity.
Qed.

Lemma eval_measures_zero : forall evalres algorithms dd df ms oj r,
  (oj = None \/ oj = Some 0%Z) ->
  eval_measures glob evalAlgorithm default_evalalgs evalres algorithms dd df ms oj = inr r ->
  r = None \/ r = Some 0%Z.
Proof.
  intros evalres algorithms dd df ms. induction ms as [|[im m] rest IH]; intros oj r Hoj H.
  - injection H as <-. exact Hoj.
  - cbn [eval_measures] in H.
    destruct (negb (Z.land evalres im =? im)%Z).
    + exact (IH oj r Hoj H).
    + unfold bind in H.
      destruct (eval_measure glob evalAlgorithm default_evalalgs algorithms dd df m) as [e|j] eqn:E;
        [discriminate|].
      apply eval_measure_zero in E. subst j. exact (IH (Some 0%Z) r (or_intror eq_refl) H).
Qed.

End Ev.

End EvalResFacts.


Module HmsMore.
Import Hicbem.

Lemma secondsToHms_int_any (s : Z) :
  let '(h, m, sec) := secondsToHms s in
  (h = s / 3600 /\ h * 3600 + m * 60 + sec = s /\ 0 <= m < 60 /\ 0 <= sec < 60)%Z.
Proof.
  unfold secondsToHms.
  pose proof (Z.div_mod s 3600 ltac:(lia)) as E1.
  pose proof (Z.mod_pos_bound s 3600 ltac:(lia)) as B1.
  assert (Er : (s - s / 3600 * 3600 = s mod 3600)%Z) by lia.
  rewrite Er.
  pose proof (Z.div_mod (s mod 3600) 60 ltac:(lia)) as E2.
  pose proof (Z.mod_pos_bound (s mod 3600) 60 ltac:(lia)) as B2.
  assert (M1 : (0 <= s mod 3600 / 60)%Z) by (apply Z.div_pos; lia).
  assert (M2 : (s mod 3600 / 60 < 60)%Z) by (apply Z.div_lt_upper_bound; lia).
  lia.
Qed.

Lemma int_of_real_ceiling (q : Q) : (q <= 0)%Q -> int_of_real q = Qceiling q.
Proof.
  destruct q as [n d]. unfold int_of_real, Qceiling, Qfloor, Qle; cbn. intro H.
  replace n with (- (- n))%Z at 1 by lia.
  rewrite Z.quot_opp_l by lia. rewrite Z.quot_div_nonneg by lia. reflexivity.
Qed.

Lemma secondsToHms_rat_nonpos (s : Q) : (s <= 0)%Q ->
  let '(h, m, sec) := secondsToHms_real s in
  (inject_Z h * 3600 + inject_Z m * 60 + sec == s)%Q /\ (h <= 0)%Z /\ (-60 < m <= 0)%Z
  /\ (-60 < sec <= 0)%Q.
Proof.
  intros Hs. unfold secondsToHms_real.
  assert (Hq1 : (s / 3600 <= 0)%Q).
  { change (s / 3600)%Q with (s * (1 # 3600))%Q. lra. }
  rewrite (int_of_real_ceiling _ Hq1).
  set (h := Qceiling (s / 3600)).
  pose proof (Qle_ceiling (s / 3600)) as F1.
  pose proof (Qceiling_lt (s / 3600)) as F2. fold h in F1, F2.
  unfold Z.sub in F2. rewrite inject_Z_plus in F2. change (inject_Z (Z.opp 1)) with (-1)%Q in F2.
  change (s / 3600)%Q with (s * (1 # 3600))%Q in F1, F2, Hq1.
  assert (Hh : (h <= 0)%Z).
  { assert (Hh' : (inject_Z h < 1)%Q) by lra.
    change 1%Q with (inject_Z 1) in Hh'. rewrite <- Zlt_Qlt in Hh'. lia. }
  assert (Hr : ((s - inject_Z h * 3600) / 60 <= 0)%Q).
  { change ((s - inject_Z h * 3600) / 60)%Q with ((s - inject_Z h * 3600) * (1 # 60))%Q. lra. }
  rewrite (int_of_real_ceiling _ Hr).
  set (m := Qceiling ((s - inject_Z h * 3600) / 60)).
  pose proof (Qle_ceiling ((s - inject_Z h * 3600) / 60)) as G1.
  pose proof (Qceiling_lt ((s - inject_Z h * 3600) / 60)) as G2. fold m in G1, G2.
  unfold Z.sub in G2. rewrite inject_Z_plus in G2. change (inject_Z (Z.opp 1)) with (-1)%Q in G2.
  change ((s - inject_Z h * 3600) / 60)%Q with ((s - inject_Z h * 3600) * (1 # 60))%Q
    in G1, G2, Hr.
  split; [lra|]. split; [exact Hh|]. split; [split|].
  - assert (Hm : (inject_Z (-60) < inject_Z m)%Q).
    { change (inject_Z (-60)) with (-60)%Q. lra. }
    rewrite <- Zlt_Qlt in Hm. exact Hm.
  - assert (Hm : (inject_Z m < inject_Z 1)%Q).
    { change (inject_Z 1) with 1%Q. lra. }
    rewrite <- Zlt_Qlt in Hm. lia.
  - split; lra.
Qed.

End HmsMore.

Module ControlMore.
Import Proc ProcFacts.

Section Expiry.

Variable P : proc.
Variable clock : nat -> Q.
Variable timeout : Z.

Lemma loop_expiry : forall f k t,
  k < t -> t - k < f ->
  (forall i, i < t -> alive P None None i = true) ->
  (forall i, 1 <= i < t -> (clock i - clock 0 <= inject_Z timeout)%Q) ->
  (timeout <> 0)%Z -> ~ (clock t - clock 0 <= inject_Z timeout)%Q ->
  controlTime_loop P clock timeout f (clock 0) (mkM k None None [])
  = Some (timeout_block P (clock t - clock 0)%Q (mkM t None None [])).
Proof.
  induction f as [|f IH]; intros k t Hk Hf Hal Hle Hz Hgt; [lia|].
  cbn [controlTime_loop]. unfold poll; cbn [now termed killed].
  rewrite (Hal k Hk). unfold sleep1; cbn [now termed killed events].
  destruct (Nat.eq_dec (S k) t) as [<- | Hne].
  - replace (Qle_bool (clock (S k) - clock 0) (inject_Z timeout)) with false
      by (symmetry; apply not_true_iff_false; rewrite Qle_bool_iff; exact Hgt).
    replace (Z.eqb timeout 0) with false by (symmetry; apply Z.eqb_neq; exact Hz).
    cbn [negb andb].
    destruct (timeout_block_shape P (clock (S k) - clock 0)%Q (S k)) as [_ Hp].
    destruct f as [|f']; [lia|].
    cbn [controlTime_loop]. rewrite Hp. reflexivity.
  - replace (Qle_bool (clock (S k) - clock 0) (inject_Z timeout)) with true
      by (symmetry; apply Qle_bool_iff; apply Hle; lia).
    rewrite andb_false_r. apply IH; try assumption; lia.
Qed.

Lemma loop_exit : forall f k e,
  nexit P = Some e -> k <= e -> e - k < f ->
  (forall i, 1 <= i <= e -> (clock i - clock 0 <= inject_Z timeout)%Q) ->
  controlTime_loop P clock timeout f (clock 0) (mkM k None None [])
  = Some (mkM e None None []).
Proof.
  induction f as [|f IH]; intros k e He Hk Hf Hle; [lia|].
  cbn [controlTime_loop]. unfold poll, alive; cbn [now termed killed].
  rewrite He. destruct (k <? e) eqn:Hlt; cbn [andb].
  - apply Nat.ltb_lt in Hlt. unfold sleep1; cbn [now termed killed events].
    replace (Qle_bool (clock (S k) - clock 0) (inject_Z timeout)) with true
      by (symmetry; apply Qle_bool_iff; apply Hle; lia).
    rewrite andb_false_r. apply IH; try assumption; lia.
  - apply Nat.ltb_ge in Hlt. replace k with e by lia. reflexivity.
Qed.

End Expiry.

End ControlMore.

Module ParseMore.
Import Py Hicbem ParseProps ParseFacts.



Lemma parse_arg_shape (st st1 : pstate) (a : string) :
  parse_arg st a = inr st1 ->
  is_flag a = negb (has_sparam st) /\ has_sparam st1 = is_flag a
  /\ ((udatas st1 = udatas st /\ wdatas st1 = wdatas st)
      \/ (is_flag a = false /\ a <> "."%string /\ a <> ".."%string
          /\ ((udatas st1 = udatas st ++ [a] /\ wdatas st1 = wdatas st)
              \/ (udatas st1 = udatas st /\ wdatas st1 = wdatas st ++ [a])))).
Proof.
  intros H. destruct a as [|c0 rest]; [discriminate|].
  unfold parse_arg in H. unfold has_sparam. cbn [is_flag].
  destruct (Ascii.eqb c0 "-") eqn:E0.
  - destruct (sparam st) as [sp|] eqn:Esp; [discriminate|].
    destruct rest as [|c1 rest2]; [discriminate|].
    cbn [xorb negb orb String.length Nat.ltb Nat.leb] in H.
    split_ifs H; eqb_to_eq;
      destruct rest2 as [|c2 rest3]; split_ifs H; injection H as <-;
      (split; [reflexivity|]; split; [reflexivity|]; left; split; reflexivity).
  - destruct (sparam st) as [sp|] eqn:Esp; [|discriminate].
    cbn [xorb negb orb] in H.
    destruct (String.eqb (String c0 rest) "." || String.eqb (String c0 rest) "..") eqn:Edot;
      [discriminate|].
    apply orb_false_iff in Edot as [Ed1 Ed2].
    apply String.eqb_neq in Ed1, Ed2.
    split_ifs H; eqb_to_eq.
    + injection H as <-. unfold add_data.
      split; [reflexivity|]. split; [reflexivity|]. right.
      split; [reflexivity|]. split; [exact Ed1|]. split; [exact Ed2|].
      destruct (weighted st); [right | left]; split; reflexivity.
    + destruct (py_int (String c0 rest)) as [n|] eqn:En; [|discriminate].
      injection H as <-. split; [reflexivity|]. split; [reflexivity|].
      left; split; reflexivity.
Qed.


Lemma parse_loop_shape : forall args st st',
  parse_loop st args = inr st' ->
  (forall i a, nth_error args i = Some a -> is_flag a = xorb (Nat.even i) (has_sparam st))
  /\ exists du dw, udatas st' = udatas st ++ du /\ wdatas st' = wdatas st ++ dw
       /\ Forall (value_ok args) (du ++ dw).
Proof.
  induction args as [|a rest IH]; intros st st' H.
  - injection H as <-. split; [intros [|i] a Ha; discriminate|].
    exists [], []. rewrite !app_nil_r. split; [reflexivity|]. split; [reflexivity|]. constructor.
  - cbn [parse_loop] in H.
    destruct (parse_arg st a) as [e|st1] eqn:Hpa; [discriminate|]. cbn [bind] in H.
    destruct (parse_arg_shape _ _ _ Hpa) as (Hf & Hs1 & Hd).
    destruct (IH st1 st' H) as (Halt & du & dw & Hu & Hw & Hok).
    split.
    + intros [|i] x Hx.
      * injection Hx as <-. rewrite Hf. destruct (has_sparam st); reflexivity.
      * cbn [nth_error] in Hx. rewrite (Halt i x Hx), Hs1, Hf, Nat.even_succ, <- Nat.negb_even.
        destruct (Nat.even i), (has_sparam st); reflexivity.
    + assert (Hok' : Forall (value_ok (a :: rest)) (du ++ dw)).
      { eapply Forall_impl; [|exact Hok].
        intros x (Hin & Hx1 & Hx2 & Hx3). split; [right; exact Hin | auto]. }
      destruct Hd as [(Hu1 & Hw1) | (Ha1 & Ha2 & Ha3 & [(Hu1 & Hw1) | (Hu1 & Hw1)])].
      * exists du, dw. rewrite Hu, Hw, Hu1, Hw1. auto.
      * exists (a :: du), dw. rewrite Hu, Hw, Hu1, Hw1, <- app_assoc. split; [reflexivity|].
        split; [reflexivity|]. constructor; [|exact Hok'].
        split; [left; reflexivity|]. auto.
      * exists du, (a :: dw). rewrite Hu, Hw, Hu1, Hw1, <- app_assoc. split; [reflexivity|].
        split; [reflexivity|]. apply Forall_app in Hok' as [Hd1 Hd2].
        apply Forall_app. split; [exact Hd1|]. constructor; [|exact Hd2].
        split; [left; reflexivity|]. auto.
Qed.

End ParseMore.

(* ------------------------------------------------------------------ *)
(** ** Case-insensitive algorithm names *)

Module NameFacts.
Import PyStr.

Lemma ascii_upper_lower (c : ascii) : ascii_upper (ascii_lower c) = ascii_upper c.
Proof. destruct c as [[] [] [] [] [] [] [] []]; reflexivity. Qed.

(** [a.capitalize()] depends only on [a.lower()]. *)
Lemma capitalize_lower (a b : string) : lower a = lower b -> capitalize a = capitalize b.
Proof.
  destruct a as [|c r], b as [|c' r']; cbn; intros H; try discriminate; [reflexivity|].
  injection H as Hc Hr.
  rewrite <- ascii_upper_lower, Hc, ascii_upper_lower, Hr. reflexivity.
Qed.

End NameFacts.

(* ------------------------------------------------------------------ *)
(** ** Properties of the benchmark driver *)

Module BenchDriver.
Import Py PyStr Bench Prep Shuf BenchProps PrepProps ShufProps BenchFacts BenchTime PrepFacts ShufFacts.

Lemma parseParams_wf : forall (pf : string -> option Q) args st,
  Bench.parseParams pf args = inr st -> bwf st.
Proof.
  intros pf [|a rest] st H; [discriminate|].
  refine (bparse_loop_wf pf (a :: rest) binit st _ H).
  split; [reflexivity|]. split; [unfold binit, syntinum; cbn; lia|]. split; [cbn; lia|].
  split; left; reflexivity.
Qed.

(** X1: every parameter set [parseParams] returns has a synthetic-networks
    directory ending with a slash, non-negative instance and shuffle counts,
    an evaluation mask in 0..3 and a conversion mask in {0, 1, 3, 5, 7}. *)
Theorem benchmark_parseParams_ranges : forall (pf : string -> option Q) args st,
  Bench.parseParams pf args = inr st ->
  endswith "/" (syntdir st) = true /\ (0 <= netins st)%Z /\ (0 <= shufnum st)%Z
  /\ In (evalres st) [0; 1; 2; 3]%Z /\ In (convnets st) [0; 1; 3; 5; 7]%Z.
Proof. exact parseParams_wf. Qed.

Lemma benchmark_parseParams_ranges_witness :
  exists st,
    Bench.parseParams (fun s => option_map inject_Z (py_int s))
      ["-gf=3.2=out"; "-crf"; "-e"]%string = inr st
    /\ (endswith "/" (syntdir st) = true /\ (0 <= netins st)%Z /\ (0 <= shufnum st)%Z
        /\ In (evalres st) [0; 1; 2; 3]%Z /\ In (convnets st) [0; 1; 3; 5; 7]%Z).
Proof.
  eexists. split; [vm_compute; reflexivity|].
  apply (benchmark_parseParams_ranges (fun s => option_map inject_Z (py_int s))
           ["-gf=3.2=out"; "-crf"; "-e"]%string).
  vm_compute; reflexivity.
Defined.

(** X2: without a [-t] option the timeout is 36 hours; otherwise it is the
    value of the last [-t] option times the multiplier of the last [-tm] or
    [-th] option anywhere in the arguments (1 without one): a unit is
    sticky, a later [-ts] or a plain [-t] does not reset it. *)
Theorem benchmark_parseParams_timeout : forall (pf : string -> option Q) args st,
  Bench.parseParams pf args = inr st ->
  match last_tvalue None args with
  | None => Bench.timeout st = inject_Z (36 * 60 * 60)
  | Some v => exists x, pf v = Some x /\ Bench.timeout st = (x * last_unit 1 args)%Q
  end.
Proof.
  intros pf [|a rest] st H; [discriminate|]. cbn [Bench.parseParams] in H.
  destruct (bparse_loop_time pf (Bench.timeout binit) (a :: rest) binit None st H eq_refl)
    as [Hm Ht].
  unfold tinv in Ht. destruct (last_tvalue None (a :: rest)); [|exact Ht].
  destruct Ht as (x & Hx & Ht). exists x. split; [exact Hx|]. rewrite Ht, Hm. reflexivity.
Qed.

Lemma benchmark_parseParams_timeout_witness :
  exists st,
    Bench.parseParams (fun s => option_map inject_Z (py_int s)) ["-tm=1"; "-ts=5"]%string
      = inr st
    /\ Bench.timeout st = inject_Z 300
    /\ (exists x, option_map inject_Z (py_int "5") = Some x
                  /\ Bench.timeout st = (x * last_unit 1 ["-tm=1"; "-ts=5"]%string)%Q).
Proof.
  eexists. split; [vm_compute; reflexivity|]. split; [vm_compute; reflexivity|].
  exact (benchmark_parseParams_timeout (fun s => option_map inject_Z (py_int s))
           ["-tm=1"; "-ts=5"]%string _ eq_refl).
Defined.

(** X3: after a successful [parseParams] and [prepareInput], the targets
    [benchmark] works on are never empty, every data directory ends with a
    slash, and [shuffleNets] never fails its assertion when shuffling is
    requested: it can only raise the [ValueError] of [int] or the
    [OSError] of [os.remove]. *)
Theorem benchmark_inputs_ready : forall (pf : string -> option Q) glob isdir prepareDir
  removable args st dd df T,
  Bench.parseParams pf args = inr st ->
  prepareInput glob isdir prepareDir (datas st) = inr (dd, df) ->
  let '(dd', df') := add_synthetic (gensynt st) (syntdir st) (dd, df) in
  (dd' <> [] \/ df' <> [])
  /\ Forall (fun d => endswith "/" (snd d) = true) dd'
  /\ (shufnum st <> 0%Z ->
      forall e, snd (shuffleNets glob removable (shufnum st) dd' df' T) = inl e ->
                e = ValueError \/ e = OSError).
Proof.
  intros pf glob isdir prepareDir removable args st dd df T Hp Hi.
  destruct (parseParams_wf pf args st Hp) as (_ & _ & Hs & _).
  pose proof (prepareInput_ok glob isdir prepareDir _ _ _ Hi) as Hdd.
  destruct (add_synthetic (gensynt st) (syntdir st) (dd, df)) as [dd' df'] eqn:Ea.
  destruct (add_synthetic_ok _ _ _ _ _ _ Hdd Ea) as [Hne Hok].
  split; [exact Hne|]. split; [exact Hok|].
  intros Hz e He. unfold shuffleNets in He.
  replace (shufnum st <? 1)%Z with false in He by (symmetry; apply Z.ltb_ge; lia).
  pose proof (shuffle_files_outcome removable (shufnum st) ltac:(lia)
                (shuffle_targets glob dd' df') 0) as Ho.
  destruct (shuffle_files removable (shufnum st) (shuffle_targets glob dd' df') 0) as [l r].
  cbn [snd] in Ho, He. destruct r as [e'|c]; [|discriminate].
  injection He as <-. destruct Ho as [[-> _] | [-> _]]; [left | right]; reflexivity.
Qed.

Lemma benchmark_inputs_ready_witness :
  exists st dd df,
    Bench.parseParams (fun s => option_map inject_Z (py_int s)) ["-d=nets"; "-g=.2"]%string
      = inr st
    /\ prepareInput (fun p => [p]) (fun _ => true) (fun _ _ => inr tt) (datas st)
       = inr (dd, df)
    /\ (let '(dd', df') := add_synthetic (gensynt st) (syntdir st) (dd, df) in
        (dd' <> [] \/ df' <> [])
        /\ Forall (fun d => endswith "/" (snd d) = true) dd'
        /\ (shufnum st <> 0%Z ->
            forall e, snd (shuffleNets (fun p => [p]) (fun _ => false) (shufnum st) dd' df'
                                 (30 * 60)) = inl e
                      -> e = ValueError \/ e = OSError)).
Proof.
  eexists; eexists; eexists. split; [vm_compute; reflexivity|].
  split; [vm_compute; reflexivity|].
  apply (benchmark_inputs_ready (fun s => option_map inject_Z (py_int s)) (fun p => [p])
           (fun _ => true) (fun _ _ => inr tt) (fun _ => false) ["-d=nets"; "-g=.2"]%string).
  - vm_compute; reflexivity.
  - vm_compute; reflexivity.
Defined.

End BenchDriver.

(* ------------------------------------------------------------------ *)
(** ** Properties of the shuffling and conversion stages *)

Module ShufDriver.
Import Py PyStr Shuf ShufProps ShufFacts.

(** X4: when [shuffleNets] succeeds, it schedules one shuffling job per base
    network (a file without a second extension), in order, gives
    [_execpool.join] the larger of [shuftimeout] and 3 minutes per job and
    shuffle, and removes only files of the targets whose numeric second
    extension exceeds [shufnum]. *)
Theorem shuffleNets_success : forall glob removable shufnum dd df T ev lim,
  shuffleNets glob removable shufnum dd df T = (ev, inr lim) ->
  let files := shuffle_targets glob dd df in
  lim = Z.max T (Z.of_nat (List.length (filter is_base files)) * shufnum * shufnum * 180)
  /\ scheduled ev = map shuffle_job (filter is_base files)
  /\ (forall g, In (Removed g) ev ->
        In g files /\ exists d idx k, second_ext g = String d idx /\ py_int idx = Some k
                                    /\ (shufnum < k)%Z).
Proof.
  intros glob removable shufnum dd df T ev lim H. unfold shuffleNets in H.
  destruct (shufnum <? 1)%Z eqn:Es; [discriminate|]. apply Z.ltb_ge in Es.
  destruct (shuffle_files removable shufnum (shuffle_targets glob dd df) 0) as [l r] eqn:E.
  destruct r as [e|c]; [discriminate|]. cbn in H. injection H as <- <-.
  destruct (shuffle_files_ok removable shufnum Es _ 0 l c E) as (Hc & Hs & Hr).
  cbv zeta. split; [rewrite Hc; f_equal; ring|]. split; [exact Hs | exact Hr].
Qed.

Lemma shuffleNets_success_witness :
  exists ev lim,
    shuffleNets (fun _ => ["d/a.nsa"; "d/a.1.nsa"; "d/a.5.nsa"; "d/b.nsa"]%string)
      (fun _ => true) 2 [(@None bool, "d/"%string)] [] (30 * 60) = (ev, inr lim)
    /\ ev = [Scheduled "a_shf" "d/"; Removed "d/a.5.nsa"; Scheduled "b_shf" "d/"]%string
    /\ (let files := shuffle_targets (fun _ => ["d/a.nsa"; "d/a.1.nsa"; "d/a.5.nsa"; "d/b.nsa"]%string)
                       [(@None bool, "d/"%string)] [] in
        lim = Z.max (30 * 60) (Z.of_nat (List.length (filter is_base files)) * 2 * 2 * 180)
        /\ scheduled ev = map shuffle_job (filter is_base files)
        /\ (forall g, In (Removed g) ev ->
              In g files /\ exists d idx k, second_ext g = String d idx /\ py_int idx = Some k
                                          /\ (2 < k)%Z)).
Proof.
  eexists; eexists. split; [vm_compute; reflexivity|]. split; [vm_compute; reflexivity|].
  apply (shuffleNets_success _ (fun _ => true)). vm_compute; reflexivity.
Defined.

(** X5: [shuffleNets] raises [AssertionError] exactly when [shufnum < 1],
    before it looks at any file.  Otherwise it fails exactly when some
    target has a second extension that [int] rejects or is a redundant
    shuffle that [os.remove] cannot delete: a [ValueError] comes with the
    former, an [OSError] with the latter. *)
Theorem shuffleNets_errors : forall glob removable shufnum dd df T,
  match snd (shuffleNets glob removable shufnum dd df T) with
  | inl e => ((shufnum < 1)%Z /\ e = AssertionError
              /\ fst (shuffleNets glob removable shufnum dd df T) = [])
             \/ ((1 <= shufnum)%Z
                 /\ ((e = ValueError /\ existsb bad_index (shuffle_targets glob dd df) = true)
                     \/ (e = OSError
                         /\ existsb (stuck removable shufnum) (shuffle_targets glob dd df)
                            = true)))
  | inr _ => (1 <= shufnum)%Z /\ existsb bad_index (shuffle_targets glob dd df) = false
             /\ existsb (stuck removable shufnum) (shuffle_targets glob dd df) = false
  end.
Proof.
  intros glob removable shufnum dd df T. unfold shuffleNets.
  destruct (shufnum <? 1)%Z eqn:Es.
  - apply Z.ltb_lt in Es. left. split; [exact Es|]. split; reflexivity.
  - apply Z.ltb_ge in Es.
    pose proof (shuffle_files_outcome removable shufnum Es (shuffle_targets glob dd df) 0)
      as Ho.
    destruct (shuffle_files removable shufnum (shuffle_targets glob dd df) 0) as [l r].
    cbn [snd] in Ho |- *. destruct r as [e|c]; cbn.
    + right. split; [exact Es | exact Ho].
    + split; [exact Es | exact Ho].
Qed.

End ShufDriver.

Module ConvDriver.
Import Py PyStr Conv ShufProps ConvFacts.

(** X6: [convertNets] converts exactly the networks of the directory that
    [shuffleNet] treats as base networks (no second extension), in the
    order [glob] lists them, gives [_execpool.join] the larger of
    [convtimeout] and 3 minutes per converted network, and always hands
    back a cleared pool. *)
Theorem convertNets_base_networks : forall glob pyexec pool datadir asym overwrite resdub T,
  convertNets glob pyexec pool datadir asym overwrite resdub T =
  (flat_map (fun net => convertNet pyexec true net asym overwrite resdub)
     (filter is_base (glob (star_join datadir extnetfile))),
   Z.max T (Z.of_nat (List.length (filter is_base (glob (star_join datadir extnetfile)))) * 180),
   false)%Z.
Proof.
  intros. unfold convertNets. rewrite convert_loop_eq. reflexivity.
Qed.

Lemma flat_map_skipped pyexec overwrite resdub (df : list (option bool * string)) :
  flat_map (fun f => convertNet pyexec false (snd f) (fst f) overwrite resdub) df
  = map (fun f => Skipped (snd f)) df.
Proof.
  induction df as [|f rest IH]; [reflexivity|]. cbn [flat_map map].
  rewrite IH. reflexivity.
Qed.

(** X7: in [benchmark]'s conversion stage, the data files given with [-f]
    are never converted when the stage starts without a pool or there is
    a data directory: the pool [convertNets] leaves is cleared, so each
    data file is only reported as skipped. *)
Theorem convert_stage_files_skipped : forall glob pyexec pool convnets dd df,
  (pool = false \/ dd <> []) ->
  convert_stage glob pyexec pool convnets dd df
  = fst (convert_dirs glob pyexec pool (Z.land convnets 3 =? 3)%Z
           (negb (Z.land convnets 4 =? 0)%Z) dd)
    ++ map (fun f => Skipped (snd f)) df.
Proof.
  intros glob pyexec pool convnets dd df Hp. unfold convert_stage.
  destruct (convert_dirs glob pyexec pool (Z.land convnets 3 =? 3)%Z
              (negb (Z.land convnets 4 =? 0)%Z) dd) as [l p] eqn:E.
  assert (Hp' : p = false).
  { destruct dd as [|d rest].
    - cbn in E. injection E as _ <-. destruct Hp as [H|H]; [exact H | contradiction].
    - pose proof (convert_dirs_pool glob pyexec pool (Z.land convnets 3 =? 3)%Z
                    (negb (Z.land convnets 4 =? 0)%Z) (d :: rest) ltac:(discriminate)) as Hq.
      rewrite E in Hq. exact Hq. }
  subst p. cbn [fst]. rewrite flat_map_skipped. reflexivity.
Qed.

Lemma convert_stage_files_skipped_witness :
  convert_stage (fun _ => []) "python" true 1 [(@None bool, "d/"%string)] [(@None bool, "a.nsa"%string)]
  = fst (convert_dirs (fun _ => []) "python" true (Z.land 1 3 =? 3)%Z
           (negb (Z.land 1 4 =? 0)%Z) [(@None bool, "d/"%string)])
    ++ map (fun f => Skipped (snd f)) [(@None bool, "a.nsa"%string)].
Proof.
  apply convert_stage_files_skipped. right. discriminate.
Defined.

End ConvDriver.

(* ------------------------------------------------------------------ *)
(** ** Properties of [runApps] and [evalResults] *)

Module AppsDriver.
Import Py PyStr Run Apps AppsProps AppsFacts.

(** X8: when every runner returns a non-negative job count or raises a
    [StandardError] on every network, [runApps] with no pool running
    succeeds on any non-empty targets: [netcount] is the number of
    networks visited (not the number that got jobs), and [jobsnum], which
    starts at 1 and is increased by its own value on each network whose
    runners all return it, is at least [2^netcount], exactly [2^netcount]
    when every runner returns 0; the time limit is
    [min(timeout * jobsnum, 5 days)]. *)
Theorem runApps_jobs_doubling : forall glob appsattr unknownApp default_algs algorithms
  dd df exectime timeout hi,
  (dd <> [] \/ df <> []) -> (0 <= exectime)%Q -> (0 <= timeout)%Q ->
  runners_in 0 hi (select_algs appsattr unknownApp default_algs algorithms) timeout
    (app_targets glob dd df) ->
  exists l j,
    runApps glob appsattr unknownApp default_algs false algorithms dd df exectime timeout
    = (l, inr (j, Z.of_nat (List.length (app_targets glob dd df)),
               py_min (timeout * inject_Z j) (inject_Z (5 * 24 * 60 * 60))))
    /\ (2 ^ Z.of_nat (List.length (app_targets glob dd df)) <= j)%Z
    /\ (hi = 0%Z -> j = 2 ^ Z.of_nat (List.length (app_targets glob dd df)))%Z.
Proof.
  intros glob appsattr unknownApp default_algs algorithms dd df exectime timeout hi
    Hne He Ht Hr.
  unfold runApps.
  assert (Hm : match dd, df with [], [] => true | _, _ => false end = false).
  { destruct dd, df; [destruct Hne as [H|H]; contradiction | reflexivity..]. }
  rewrite Hm, (proj2 (Qle_bool_iff _ _) He), (proj2 (Qle_bool_iff _ _) Ht). cbn [negb andb].
  destruct (apps_nets_counts (select_algs appsattr unknownApp default_algs algorithms) timeout
              hi (app_targets glob dd df) 1 0 ltac:(lia) Hr) as (j & Hs & Hb & Hz).
  destruct (apps_nets (select_algs appsattr unknownApp default_algs algorithms) timeout
              (app_targets glob dd df) 1 0) as [l r].
  cbn [snd] in Hs. subst r. exists l, j. split; [reflexivity|].
  rewrite Z.mul_1_r in Hb, Hz. split; [exact Hb | exact Hz].
Qed.

Lemma runApps_jobs_doubling_witness :
  exists l j,
    runApps (fun _ => []) (fun _ => None) (fun _ _ _ _ => inr 0%Z)
      [("execA"%string, fun _ _ _ => inr 0%Z)] false None []
      [(None, "n1.nsa"%string); (None, "n2.nsa"%string)] 0 10
    = (l, inr (j, Z.of_nat (List.length (app_targets (fun _ => []) []
                                          [(None, "n1.nsa"%string); (None, "n2.nsa"%string)])),
               py_min (10 * inject_Z j) (inject_Z (5 * 24 * 60 * 60))))
    /\ (2 ^ Z.of_nat (List.length (app_targets (fun _ => []) []
                                     [(None, "n1.nsa"%string); (None, "n2.nsa"%string)])) <= j)%Z
    /\ (0%Z = 0%Z -> j = 2 ^ Z.of_nat (List.length (app_targets (fun _ => []) []
                                     [(None, "n1.nsa"%string); (None, "n2.nsa"%string)])))%Z.
Proof.
  apply (runApps_jobs_doubling (fun _ => []) (fun _ => None) (fun _ _ _ _ => inr 0%Z)
           [("execA"%string, fun _ _ _ => inr 0%Z)] None []
           [(None, "n1.nsa"%string); (None, "n2.nsa"%string)] 0 10 0).
  - right. discriminate.
  - vm_compute. discriminate.
  - vm_compute. discriminate.
  - intros a asym net [<- | []] _. cbn. lia.
Defined.

Lemma map_capitalize_congr {B : Type} (h : string -> B) : forall l1 l2,
  map lower l1 = map lower l2 -> map (fun a => h (capitalize a)) l1 = map (fun a => h (capitalize a)) l2.
Proof.
  induction l1 as [|x l1 IH]; intros [|y l2] H; try discriminate; [reflexivity|].
  cbn [map] in H |- *. injection H as Hx Hl.
  rewrite (NameFacts.capitalize_lower x y Hx), (IH l2 Hl). reflexivity.
Qed.

(** X10: [runApps] selects the runners for the requested algorithm names
    case-insensitively: two name lists equal after lower-casing select the
    same runners, under the same names. *)
Theorem select_algs_case_insensitive : forall appsattr unknownApp default_algs l1 l2,
  map lower l1 = map lower l2 ->
  select_algs appsattr unknownApp default_algs (Some l1)
  = select_algs appsattr unknownApp default_algs (Some l2).
Proof.
  intros appsattr unknownApp default_algs l1 l2 H.
  destruct l1 as [|a1 r1], l2 as [|a2 r2]; try discriminate; [reflexivity|].
  cbn [select_algs].
  exact (map_capitalize_congr
           (fun c => let n := (prefExec ++ c)%string in
                     (n, match appsattr n with Some f => f | None => unknownApp n end))
           (a1 :: r1) (a2 :: r2) H).
Qed.

Lemma select_algs_case_insensitive_witness :
  select_algs (fun _ => None) (fun _ _ _ _ => inr 0%Z) [] (Some ["HIRECS"; "louvain"]%string)
  = select_algs (fun _ => None) (fun _ _ _ _ => inr 0%Z) [] (Some ["hirecs"; "Louvain"]%string).
Proof.
  apply select_algs_case_insensitive. vm_compute. reflexivity.
Defined.

End AppsDriver.

Module EvalDriver.
Import Py Eval Apps EvalRes EvalResFacts.

(** X9: whenever [evalResults] returns, the time it gives [_execpool.join]
    is [exectime * 2] for a finite [timeout]: [jobsnum] is reset to 0 for
    each evaluated measure, so [min(timeout * jobsnum, 5 days)] is 0 and
    never wins the [max].  For [timeout = inf], [inf * 0] is [nan], which
    [min] and [max] both keep, so the join gets [nan]; with [-inf] or
    [nan] the assertion fails and [evalResults] does not return. *)
Theorem evalResults_join_time : forall glob evalAlgorithm default_evalalgs extclnodes pool
  evalres algorithms dd df exectime timeout tl,
  evalResults glob evalAlgorithm default_evalalgs extclnodes pool evalres algorithms dd df
    exectime timeout = inr tl ->
  match timeout with
  | Fin _ => exists q, tl = Fin q /\ (q == exectime * 2)%Q
  | Inf true => tl = NaN
  | Inf false | NaN => False
  end.
Proof.
  intros glob evalAlgorithm default_evalalgs extclnodes pool evalres algorithms dd df
    exectime timeout tl H.
  unfold evalResults in H.
  destruct (negb (negb (evalres =? 0)%Z
                  && negb (match dd, df with [], [] => true | _, _ => false end)
                  && Qle_bool 0 exectime && fge timeout (Fin 0))) eqn:Ec; [discriminate|].
  apply negb_false_iff in Ec. apply andb_prop in Ec as [Ec Ht].
  apply andb_prop in Ec as [_ He]. apply Qle_bool_iff in He.
  destruct pool; [discriminate|]. unfold bind in H.
  destruct (eval_measures glob evalAlgorithm default_evalalgs evalres algorithms dd df
              (measures extclnodes) None) as [e|oj] eqn:Em; [discriminate|].
  destruct (eval_measures_zero glob evalAlgorithm default_evalalgs evalres
              algorithms dd df _ None oj (or_introl eq_refl) Em) as [-> | ->]; [discriminate|].
  injection H as <-.
  destruct timeout as [t|[|]|]; [| reflexivity | discriminate Ht | discriminate Ht].
  assert (H0 : (t * inject_Z 0 == 0)%Q) by (unfold inject_Z; ring).
  unfold fmax, fmin, fmul_int, flt.
  set (z := (t * inject_Z 0)%Q) in *.
  match goal with
  | |- context [Qle_bool z ?c] =>
      assert (Hc : (0 <= c)%Q) by (unfold inject_Z, Qle; cbn; lia);
      destruct (Qle_bool z c) eqn:E1
  end; cbv [negb].
  - destruct (Qle_bool (exectime * 2) z) eqn:E2; cbv [negb].
    + exists z. split; [reflexivity|]. apply Qle_bool_iff in E2. lra.
    + exists (exectime * 2)%Q. split; reflexivity.
  - apply not_true_iff_false in E1. rewrite Qle_bool_iff in E1. exfalso. lra.
Qed.

Lemma evalResults_join_time_witness :
  (exists tl,
    evalResults (fun _ => ["d/n.cnl"]%string) (fun _ _ _ => inr tt) (inr []) ".cnl" false 3
      (Some ["Louvain"]%string) [(false, "d/"%string)] [] 7 (Fin 100) = inr tl
    /\ exists q, tl = Fin q /\ (q == 7 * 2)%Q)
  /\ (exists tl,
    evalResults (fun _ => ["d/n.cnl"]%string) (fun _ _ _ => inr tt) (inr []) ".cnl" false 3
      (Some ["Louvain"]%string) [(false, "d/"%string)] [] 7 (Inf true) = inr tl
    /\ tl = NaN).
Proof.
  split.
  - eexists. split; [vm_compute; reflexivity|].
    exact (evalResults_join_time (fun _ => ["d/n.cnl"]%string) (fun _ _ _ => inr tt) (inr [])
             ".cnl" false 3 (Some ["Louvain"]%string) [(false, "d/"%string)] [] 7 (Fin 100) _
             eq_refl).
  - eexists. split; [vm_compute; reflexivity|].
    exact (evalResults_join_time (fun _ => ["d/n.cnl"]%string) (fun _ _ _ => inr tt) (inr [])
             ".cnl" false 3 (Some ["Louvain"]%string) [(false, "d/"%string)] [] 7 (Inf true) _
             eq_refl).
Defined.

End EvalDriver.

(* ------------------------------------------------------------------ *)
(** ** Properties of [hicbem.py] *)

Module HicbemDriver.
Import Py Proc Run HicbemMain RunFacts.

(** X11: [hicbem.benchmark] never reports an interruption.  When it
    returns normally it has invoked the four runners in order and
    completed; an exception that escapes is the one of [parseParams] or
    one of [Popen] outside [StandardError]; and when it does not return,
    it is waiting on a process it started whose monitoring does not end. *)
Theorem hicbem_benchmark_outcome : forall clock fuel pl ph args,
  let '(l, x) := HicbemMain.benchmark clock fuel pl ph args in
  (forall e, ~ In (Interrupted e) l)
  /\ match x with
     | HDone => l = [Invoked "execLouvain"; Invoked "execHirecs"; Invoked "execOslom2";
                     Invoked "execGanxis"; Completed]%string
     | HRaised e => Hicbem.parseParams args = inl e
                    \/ (is_StandardError e = false /\ (pl = inl e \/ ph = inl e))
     | HBlocked => exists u w t p, Hicbem.parseParams args = inr (u, w, t)
                   /\ (pl = inr p \/ ph = inr p) /\ controlTime p clock t fuel = None
     end.
Proof.
  intros clock fuel pl ph args. unfold HicbemMain.benchmark.
  destruct (Hicbem.parseParams args) as [e|[[u w] t]] eqn:Ep.
  - split; [intros e' []|]. left. reflexivity.
  - unfold hicbem_benchmark, algors, execLouvain, execHirecs, execOslom2, execGanxis.
    cbn [hicbem_algs hrun hname].
    rewrite (exec_runner_cases clock fuel pl) by discriminate.
    rewrite (exec_runner_cases clock fuel ph) by discriminate.
    destruct pl as [e1|p1];
      [destruct (is_StandardError e1) eqn:E1 | destruct (controlTime p1 clock t fuel) eqn:E1];
      (destruct ph as [e2|p2];
        [destruct (is_StandardError e2) eqn:E2 | destruct (controlTime p2 clock t fuel) eqn:E2]);
      cbn; try rewrite E1; try rewrite E2;
      (split; [intros e0 Hin; repeat (destruct Hin as [Hin|Hin]; [discriminate Hin|]);
               exact Hin|]);
      first
        [ reflexivity
        | right; split; [assumption | first [left; reflexivity | right; reflexivity]]
        | exists u, w, t, p1; split; [reflexivity|]; split; [left; reflexivity | exact E1]
        | exists u, w, t, p2; split; [reflexivity|]; split; [right; reflexivity | exact E2] ].
Qed.

End HicbemDriver.

Module HmsDriver.
Import Hicbem HmsMore.

(** X13: [secondsToHms] on any integer, negative ones included, floors the
    hours ([int / int] floors in Python 2), so minutes and seconds stay in
    [0, 60) and the three add back to the input; on a non-positive float
    [int()] truncates toward zero instead, so all three parts are
    non-positive, minutes and seconds in (-60, 0], and they still add back
    to the input. *)
Theorem secondsToHms_any_sign :
  (forall s : Z, let '(h, m, sec) := secondsToHms s in
     (h = s / 3600 /\ h * 3600 + m * 60 + sec = s /\ 0 <= m < 60 /\ 0 <= sec < 60)%Z)
  /\ (forall s : Q, (s <= 0)%Q ->
      let '(h, m, sec) := secondsToHms_real s in
      (inject_Z h * 3600 + inject_Z m * 60 + sec == s)%Q /\ (h <= 0)%Z /\ (-60 < m <= 0)%Z
      /\ (-60 < sec <= 0)%Q).
Proof.
  split; [exact secondsToHms_int_any | exact secondsToHms_rat_nonpos].
Qed.

Lemma secondsToHms_any_sign_witness :
  secondsToHms (-1)%Z = (-1, 59, 59)%Z
  /\ fst (secondsToHms_real (-1)%Q) = (0, 0)%Z
  /\ (snd (secondsToHms_real (-1)%Q) == -1)%Q
  /\ (let '(h, m, sec) := secondsToHms_real (-1)%Q in
      (inject_Z h * 3600 + inject_Z m * 60 + sec == -1)%Q /\ (h <= 0)%Z /\ (-60 < m <= 0)%Z
      /\ (-60 < sec <= 0)%Q).
Proof.
  split; [vm_compute; reflexivity|]. split; [vm_compute; reflexivity|].
  split; [vm_compute; reflexivity|].
  apply (proj2 secondsToHms_any_sign (-1)%Q). vm_compute. discriminate.
Defined.

End HmsDriver.

Module ControlDriver.
Import Proc ControlMore.

(** X14: for any clock, if the process is still running at the first
    second [t] at which [clock t - clock 0] exceeds a non-zero timeout,
    [controlTime] runs its timeout block exactly once, at wall time [t],
    with the elapsed time [clock t - clock 0], and returns right after. *)
Theorem controlTime_first_expiry : forall P clock timeout fuel t,
  (timeout <> 0)%Z -> 1 <= t -> t < fuel ->
  (forall i, i < t -> alive P None None i = true) ->
  (forall i, 1 <= i < t -> (clock i - clock 0%nat <= inject_Z timeout)%Q) ->
  ~ (clock t - clock 0%nat <= inject_Z timeout)%Q ->
  controlTime P clock timeout fuel
  = Some (timeout_block P (clock t - clock 0%nat)%Q (mkM t None None [])).
Proof.
  intros P clock timeout fuel t Hz Ht Hf Hal Hle Hgt. unfold controlTime, init.
  apply loop_expiry; try assumption; lia.
Qed.

Lemma controlTime_first_expiry_witness :
  controlTime sleep100 wall_clock 5 200
  = Some (timeout_block sleep100 (wall_clock 6 - wall_clock 0%nat)%Q (mkM 6 None None [])).
Proof.
  apply controlTime_first_expiry.
  - discriminate.
  - lia.
  - lia.
  - intros i Hi. unfold alive, sleep100; cbn [nexit texit]. rewrite !andb_true_r.
    apply Nat.ltb_lt. lia.
  - intros i Hi. unfold wall_clock. change (inject_Z (Z.of_nat 0)) with 0%Q.
    assert (Hq : (inject_Z (Z.of_nat i) <= inject_Z 5)%Q) by (rewrite <- Zle_Qle; lia).
    lra.
  - vm_compute. intros H. apply H. reflexivity.
Defined.

(** X15: for any clock, a process that exits by itself at second [e],
    before the clock has gone past the timeout, is never signalled:
    [controlTime] returns at wall time [e] with no event. *)
Theorem controlTime_exit_in_time : forall P clock timeout fuel e,
  nexit P = Some e -> e < fuel ->
  (forall i, 1 <= i <= e -> (clock i - clock 0%nat <= inject_Z timeout)%Q) ->
  controlTime P clock timeout fuel = Some (mkM e None None []).
Proof.
  intros P clock timeout fuel e He Hf Hle. unfold controlTime, init.
  apply loop_exit; try assumption; lia.
Qed.

Lemma controlTime_exit_in_time_witness :
  controlTime (mkProc (Some 3) None) wall_clock 5 200 = Some (mkM 3 None None []).
Proof.
  apply controlTime_exit_in_time.
  - reflexivity.
  - lia.
  - intros i Hi. unfold wall_clock. change (inject_Z (Z.of_nat 0)) with 0%Q.
    assert (Hq : (inject_Z (Z.of_nat i) <= inject_Z 5)%Q) by (rewrite <- Zle_Qle; lia).
    lra.
Defined.

End ControlDriver.

Module HicbemParse.
Import Py Hicbem ParseProps ParseMore.

(** X16: the arguments [hicbem.parseParams] accepts alternate strictly
    between options (even positions) and values (odd positions), and
    every dataset it returns is one of the arguments, neither an option
    nor [.] or [..]. *)
Theorem hicbem_parseParams_alternation : forall args u w t,
  Hicbem.parseParams args = inr (u, w, t) ->
  (forall i a, nth_error args i = Some a -> is_flag a = Nat.even i)
  /\ Forall (value_ok args) (u ++ w).
Proof.
  intros args u w t H. destruct args as [|a0 rest]; [discriminate|].
  unfold Hicbem.parseParams in H.
  destruct (parse_loop pinit (a0 :: rest)) as [e|st] eqn:E; [discriminate|].
  cbn in H. injection H as <- <- _.
  destruct (parse_loop_shape _ _ _ E) as (Halt & du & dw & Hu & Hw & Hok).
  split.
  - intros i a Ha. rewrite (Halt i a Ha). cbn. destruct (Nat.even i); reflexivity.
  - rewrite Hu, Hw. exact Hok.
Qed.

Lemma hicbem_parseParams_alternation_witness :
  Hicbem.parseParams ["-fw"; "a.txt"; "-tm"; "10"]%string = inr ([], ["a.txt"]%string, 10%Z)
  /\ (forall i a, nth_error ["-fw"; "a.txt"; "-tm"; "10"]%string i = Some a -> is_flag a = Nat.even i)
  /\ Forall (value_ok ["-fw"; "a.txt"; "-tm"; "10"]%string) ([] ++ ["a.txt"]%string).
Proof.
  split; [vm_compute; reflexivity|].
  apply (hicbem_parseParams_alternation _ [] ["a.txt"]%string 10%Z).
  vm_compute. reflexivity.
Defined.

End HicbemParse.
